(** * LTL driver management: the spreadsheet import scripts

    A shallow embedding of the three import scripts under
    [server/scripts/] — [import-carriers.py], [import-routes.py] and
    [import-location-addresses.py] — and the properties of their
    normalisers, row loops and generated SQL.

    Layout: the Python and pandas primitives the scripts call ([Py]), the
    three scripts ([Carriers], [Routes], [Locations]), then the lemmas. *)

From Stdlib Require Import String Ascii List ZArith Lia Bool Arith.
From Stdlib Require Import Numbers.DecimalString.
From Stdlib Require Numbers.DecimalPos Numbers.DecimalZ.
Import ListNotations.

Local Open Scope list_scope.
Local Open Scope string_scope.
Local Open Scope nat_scope.

(* ================================================================== *)
(** * Python and pandas primitives *)
(* ================================================================== *)

Module Py.

(** Text is modelled as ASCII: a [string] is a sequence of code points
    below 128.  On such text [\d] is [0-9] and [str.upper] only touches
    [a-z]. *)

Definition code (c : ascii) : nat := nat_of_ascii c.

(** [\d] *)
Definition is_digit (c : ascii) : bool :=
  (48 <=? code c) && (code c <=? 57).

(** [str.isspace] on one character: tab, LF, VT, FF, CR, the four
    separators FS GS RS US, and space. *)
Definition is_space (c : ascii) : bool :=
  ((9 <=? code c) && (code c <=? 13))
  || ((28 <=? code c) && (code c <=? 31))
  || (code c =? 32).

(** The C [isspace] set, which [int()] skips around a literal. *)
Definition is_c_space (c : ascii) : bool :=
  ((9 <=? code c) && (code c <=? 13)) || (code c =? 32).

Definition upper_char (c : ascii) : ascii :=
  if (97 <=? code c) && (code c <=? 122)
  then ascii_of_nat (code c - 32) else c.

(** [s.upper()] *)
Fixpoint upper (s : string) : string :=
  match s with
  | EmptyString => EmptyString
  | String c s' => String (upper_char c) (upper s')
  end.

Fixpoint lstrip_by (p : ascii -> bool) (s : string) : string :=
  match s with
  | EmptyString => EmptyString
  | String c s' => if p c then lstrip_by p s' else s
  end.

Fixpoint rstrip_by (p : ascii -> bool) (s : string) : string :=
  match s with
  | EmptyString => EmptyString
  | String c s' =>
      match rstrip_by p s' with
      | EmptyString => if p c then EmptyString else String c EmptyString
      | t => String c t
      end
  end.

(** [s.strip()] *)
Definition strip (s : string) : string :=
  rstrip_by is_space (lstrip_by is_space s).

(** [s.startswith(p)] *)
Definition startswith (p s : string) : bool := String.prefix p s.

(** [sub in s] *)
Fixpoint contains (sub s : string) : bool :=
  String.prefix sub s
  || match s with
     | EmptyString => false
     | String _ s' => contains sub s'
     end.

(** [s[a:b]] and [s[a:]] for non-negative bounds; like Python's slices
    they saturate at the end of the text. *)
Definition slice (a b : nat) (s : string) : string :=
  String.substring a (b - a) s.

Definition slice_from (a : nat) (s : string) : string :=
  String.substring a (String.length s - a) s.

(** [re.sub(r'\D', '', s)] *)
Fixpoint re_sub_nondigit (s : string) : string :=
  match s with
  | EmptyString => EmptyString
  | String c s' =>
      if is_digit c then String c (re_sub_nondigit s') else re_sub_nondigit s'
  end.

(** [s.replace(old, new)] for a one-character [old]. *)
Fixpoint replace_char (old : ascii) (new : string) (s : string) : string :=
  match s with
  | EmptyString => EmptyString
  | String c s' =>
      if Ascii.eqb c old then new ++ replace_char old new s'
      else String c (replace_char old new s')
  end.

(** [s.split(sep)] for a one-character separator. *)
Fixpoint split (sep : ascii) (s : string) : list string :=
  match s with
  | EmptyString => [EmptyString]
  | String c s' =>
      if Ascii.eqb c sep then EmptyString :: split sep s'
      else match split sep s' with
           | [] => [String c EmptyString]
           | p :: ps => String c p :: ps
           end
  end.

(** The pattern [\d{2}:\d{2}:\d{2}] anchored at the start of [s]. *)
Definition match_hms (s : string) : option string :=
  match s with
  | String h1 (String h2 (String c1 (String m1 (String m2
      (String c2 (String s1 (String s2 _))))))) =>
      if is_digit h1 && is_digit h2 && Ascii.eqb c1 ":"
         && is_digit m1 && is_digit m2 && Ascii.eqb c2 ":"
         && is_digit s1 && is_digit s2
      then Some (String.substring 0 8 s) else None
  | _ => None
  end.

(** [re.search(r'(\d{2}:\d{2}:\d{2})', s)]: group 1 of the leftmost
    match, [None] when there is none. *)
Fixpoint re_search_hms (s : string) : option string :=
  match match_hms s with
  | Some m => Some m
  | None =>
      match s with
      | EmptyString => None
      | String _ s' => re_search_hms s'
      end
  end.

(** [str(z)] for an int. *)
Definition str_int (z : Z) : string := NilZero.string_of_int (Z.to_int z).

(** Exceptions the row loops can see. *)
Inductive exn : Type :=
| ValueError
| TypeError.

(** The value of a decimal digit. *)
Definition digit_value (c : ascii) : Z := Z.of_nat (code c - 48).

(** The digits of an int literal: [digit (_? digit)*].  [after_digit]
    tells whether the previous character was a digit, so that an
    underscore is accepted only between two digits. *)
Fixpoint int_digits (after_digit : bool) (acc : Z) (s : string) : option Z :=
  match s with
  | EmptyString => if after_digit then Some acc else None
  | String c s' =>
      if is_digit c then int_digits true (acc * 10 + digit_value c) s'
      else if Ascii.eqb c "_" && after_digit then int_digits false acc s'
      else None
  end.

(** [int(s)] for a text [s], base 10: surrounding blanks, an optional
    sign, then digits.  [None] stands for [ValueError]. *)
Definition int_of_text (s : string) : option Z :=
  match rstrip_by is_c_space (lstrip_by is_c_space s) with
  | String "+" r => int_digits false 0 r
  | String "-" r => option_map Z.opp (int_digits false 0 r)
  | t => int_digits false 0 t
  end.

(** ** Cells

    A cell of a data frame read by [pd.read_excel].  Floating-point
    arithmetic is not modelled: a finite float is described by what the
    scripts observe of it. *)
Record pyfloat : Type := {
  float_int : Z;          (* int(x): the integer part *)
  float_str : string;     (* str(x) *)
  float_bool : bool       (* bool(x): x != 0.0 *)
}.

Inductive cell : Type :=
| CNull                   (* an empty cell: NaN *)
| CStr (s : string)       (* text *)
| CInt (z : Z)            (* an int64 *)
| CBool (b : bool)
| CFloat (x : pyfloat)    (* a finite float *)
| CDate (s : string).     (* a time, datetime or Timestamp, by its str() *)

(** [pd.isna(x)] and [pd.notna(x)] on a scalar. *)
Definition isna (c : cell) : bool :=
  match c with CNull => true | _ => false end.

Definition notna (c : cell) : bool := negb (isna c).

(** [str(x)] *)
Definition str (c : cell) : string :=
  match c with
  | CNull => "nan"
  | CStr s => s
  | CInt z => str_int z
  | CBool b => if b then "True" else "False"
  | CFloat x => float_str x
  | CDate s => s
  end.

(** [int(x)] *)
Definition int (c : cell) : Z + exn :=
  match c with
  | CNull => inr ValueError       (* cannot convert float NaN to integer *)
  | CStr s => match int_of_text s with Some z => inl z | None => inr ValueError end
  | CInt z => inl z
  | CBool b => inl (if b then 1%Z else 0%Z)
  | CFloat x => inl (float_int x)
  | CDate _ => inr TypeError
  end.

(** [bool(x)] *)
Definition bool_of (c : cell) : bool :=
  match c with
  | CNull => true                 (* NaN is a non-zero float *)
  | CStr s => negb (String.eqb s "")
  | CInt z => negb (Z.eqb z 0)
  | CBool b => b
  | CFloat x => float_bool x
  | CDate _ => true
  end.

(** Truth value of a text and of an optional text: the empty text and
    [None] are false. *)
Definition truthy_str (s : string) : bool := negb (String.eqb s "").

Definition truthy (o : option string) : bool :=
  match o with
  | None => false
  | Some s => truthy_str s
  end.

(** ** The body of a [for] loop under [try]

    One pass through a loop body either falls through with a value, hits
    [continue], or raises. *)
Inductive flow (A : Type) : Type :=
| Ok (a : A)
| Continue
| Raise (e : exn).

Arguments Ok {A} a.
Arguments Continue {A}.
Arguments Raise {A} e.

Definition bind {A B : Type} (m : flow A) (k : A -> flow B) : flow B :=
  match m with
  | Ok a => k a
  | Continue => Continue
  | Raise e => Raise e
  end.

Definition lift {A : Type} (r : A + exn) : flow A :=
  match r with
  | inl a => Ok a
  | inr e => Raise e
  end.

(** ** [json] string encoding

    [json.dumps(..., ensure_ascii=False)] on a text: backslash, double
    quote and the control characters below 32 are escaped, everything else
    is kept. *)
Definition hex_digit (n : nat) : ascii :=
  if n <? 10 then ascii_of_nat (48 + n) else ascii_of_nat (87 + n).

Definition json_escape_char (c : ascii) : string :=
  if code c =? 92 then "\\"
  else if code c =? 34 then String "\" (String c EmptyString)
  else if code c =? 8 then "\b"
  else if code c =? 12 then "\f"
  else if code c =? 10 then "\n"
  else if code c =? 13 then "\r"
  else if code c =? 9 then "\t"
  else if code c <? 32 then
    "\u00" ++ String (hex_digit (code c / 16))
                 (String (hex_digit (code c mod 16)) EmptyString)
  else String c EmptyString.

Fixpoint json_escape (s : string) : string :=
  match s with
  | EmptyString => EmptyString
  | String c s' => json_escape_char c ++ json_escape s'
  end.

(** A text as a JSON string, between double quotes. *)
Definition json_string (s : string) : string :=
  String "034" (json_escape s ++ String "034" EmptyString).

End Py.

Declare Scope flow_scope.
Delimit Scope flow_scope with flow.
Notation "x <- m ;; k" := (Py.bind m (fun x => k))
  (at level 61, m at next level, right associativity) : flow_scope.

Local Open Scope flow_scope.

(* ================================================================== *)
(** * import-carriers.py *)
(* ================================================================== *)

Module Carriers.
Import Py.

(** [clean_phone]: clean and format phone numbers. *)
Definition clean_phone (phone_str : cell) : option string :=
  if isna phone_str then None
  else
    let phone_clean := re_sub_nondigit (str phone_str) in
    if String.length phone_clean =? 10 then
      Some ("(" ++ slice 0 3 phone_clean ++ ") " ++ slice 3 6 phone_clean
                ++ "-" ++ slice_from 6 phone_clean)
    else if (String.length phone_clean =? 11) && startswith "1" phone_clean then
      let phone_clean := slice_from 1 phone_clean in
      Some ("(" ++ slice 0 3 phone_clean ++ ") " ++ slice 3 6 phone_clean
                ++ "-" ++ slice_from 6 phone_clean)
    else if truthy_str phone_clean then Some phone_clean else None.

(** [clean_string]: strip whitespace, [None] for nothing left. *)
Definition clean_string (s : cell) : option string :=
  if isna s then None
  else if truthy_str (strip (str s)) then Some (strip (str s)) else None.

(** [map_status]: map the spreadsheet status to the enum values. *)
Definition map_status (excel_status : cell) : string :=
  if isna excel_status then "PENDING"
  else
    let status_clean := upper (strip (str excel_status)) in
    if contains "NOT ONBOARDED" status_clean then "NOT_ONBOARDED"
    else if contains "ONBOARDED" status_clean then "ONBOARDED"
    else "PENDING".

(** A row of the carrier spreadsheet: the columns [main] reads. *)
Record carrier_row : Type := {
  Carrier_Name : cell;
  Primary_Contact : cell;
  Phone : cell;
  Primary_Email : cell;
  MC_Number : cell;
  DOT_Number : cell;
  Status : cell;
  Safety_Rating : cell;
  TAX_ID : cell;
  Type_ : cell;
  Street_Address_1 : cell;
  Street_Address_2 : cell;
  City : cell;
  ST : cell;
  Zip : cell;
  Remittance_Contact : cell;
  Remittance_Email : cell;
  Factoring_Company : cell
}.

(** The parameters of one [INSERT INTO carriers].  The two wall-clock
    columns [createdAt] and [updatedAt] are left out. *)
Record carrier_record : Type := {
  name : string;
  contactPerson : option string;
  phone : option string;
  email : option string;
  mcNumber : option string;
  dotNumber : option string;
  status : string;
  safetyRating : option string;
  taxId : option string;
  carrierType : option string;
  streetAddress1 : option string;
  streetAddress2 : option string;
  city : option string;
  state : option string;
  zipCode : option string;
  remittanceContact : option string;
  remittanceEmail : option string;
  factoringCompany : option string;
  onboardingComplete : bool
}.

(** [clean_string(str(int(x))) if pd.notna(x) else None] *)
Definition number_field (x : cell) : flow (option string) :=
  if notna x then
    z <- lift (int x) ;;
    Ok (clean_string (CStr (str_int z)))
  else Ok None.

(** The [try] block of the row loop up to the parameters handed to
    [cursor.execute]. *)
Definition prepare (row : carrier_row) : flow carrier_record :=
  match clean_string (Carrier_Name row) with
  | None => Continue
  | Some name =>
      if negb (truthy_str name) then Continue
      else
        let contact_person := clean_string (Primary_Contact row) in
        let phone := clean_phone (Phone row) in
        let email := clean_string (Primary_Email row) in
        mc_number <- number_field (MC_Number row) ;;
        dot_number <- number_field (DOT_Number row) ;;
        if negb (truthy mc_number) && negb (truthy dot_number) then Continue
        else
          let status := map_status (Status row) in
          Ok {| name := name;
                contactPerson := contact_person;
                phone := phone;
                email := email;
                mcNumber := mc_number;
                dotNumber := dot_number;
                status := status;
                safetyRating := clean_string (Safety_Rating row);
                taxId := clean_string (TAX_ID row);
                carrierType := clean_string (Type_ row);
                streetAddress1 := clean_string (Street_Address_1 row);
                streetAddress2 := clean_string (Street_Address_2 row);
                city := clean_string (City row);
                state := clean_string (ST row);
                zipCode := clean_string (Zip row);
                remittanceContact := clean_string (Remittance_Contact row);
                remittanceEmail := clean_string (Remittance_Email row);
                factoringCompany := clean_string (Factoring_Company row);
                onboardingComplete := String.eqb status "ONBOARDED" |}
  end.

(** ** The carriers table *)

(** The rows of [carriers], oldest first. *)
Definition table : Type := list carrier_record.

Definition same_key (k : string) (r : carrier_record) : bool :=
  match mcNumber r with
  | Some k' => String.eqb k k'
  | None => false
  end.

(** Modelled from the spec: the uniqueness constraint of the [carriers]
    table, whose schema is not among the scripts.  The spec gives
    [mcNumber] as the nullable conflict key, and [ON CONFLICT
    ("mcNumber")] needs a unique index on that column.  A unique index
    never takes two NULLs for equal, so a row whose [mcNumber] is NULL
    conflicts with nothing. *)
Definition conflicts (t : table) (r : carrier_record) : bool :=
  match mcNumber r with
  | Some k => existsb (same_key k) t
  | None => false
  end.

(** [cursor.execute(insert_query, ...)]: [INSERT ... ON CONFLICT
    ("mcNumber") DO NOTHING], on a database that executes the statement. *)
Definition execute_insert (t : table) (r : carrier_record) : table :=
  if conflicts t r then t else (t ++ [r])%list.

(** The table as the open transaction sees it, and the two counters. *)
Record run : Type := {
  carriers : table;
  successful_inserts : nat;
  failed_inserts : nat
}.

(** One iteration of [for index, row in df.iterrows()]. *)
Definition step (st : run) (row : carrier_row) : run :=
  match prepare row with
  | Ok r =>
      {| carriers := execute_insert (carriers st) r;
         successful_inserts := successful_inserts st + 1;
         failed_inserts := failed_inserts st |}
  | Continue => st
  | Raise _ =>
      {| carriers := carriers st;
         successful_inserts := successful_inserts st;
         failed_inserts := failed_inserts st + 1 |}
  end.

(** [main] on a table [db] and a spreadsheet [df]: the row loop, then the
    commit. *)
Definition main (db : table) (df : list carrier_row) : run :=
  fold_left step df
    {| carriers := db; successful_inserts := 0; failed_inserts := 0 |}.

End Carriers.

(* ================================================================== *)
(** * import-routes.py *)
(* ================================================================== *)

Module Routes.
Import Py.

(** The time of day of a parsed Timestamp. *)
Record timestamp : Type := {
  hour : nat;
  minute : nat;
  second : nat
}.

(** [%H], [%M], [%S]: two digits, zero-padded. *)
Definition two_digits (n : nat) : string :=
  if n <? 10 then "0" ++ str_int (Z.of_nat n) else str_int (Z.of_nat n).

(** [dt.strftime('%H:%M:%S')] *)
Definition strftime_HMS (dt : timestamp) : string :=
  two_digits (hour dt) ++ ":" ++ two_digits (minute dt) ++ ":"
    ++ two_digits (second dt).

(** [float(x)], kept as the cell it converts. *)
Inductive float_value : Type :=
| FloatOf (c : cell).

(** A row of the route spreadsheet: the columns [main] reads. *)
Record route_row : Type := {
  Name : cell;
  Orig : cell;
  Dest : cell;
  Miles : cell;
  Active : cell;
  Depart_Time : cell;
  Arrive_Time : cell
}.

(** The parameters of one [INSERT INTO routes], without the two
    wall-clock columns. *)
Record route_record : Type := {
  name : cell;
  origin : cell;
  destination : cell;
  distance : float_value;
  miles : float_value;
  active : bool;
  departureTime : option string;
  arrivalTime : option string
}.

Definition table : Type := list route_record.

Record run : Type := {
  routes : table;
  successful_inserts : nat;
  failed_inserts : nat
}.

Section WithParsers.

(** The two library parsers the script calls on free text.
    [to_datetime s] is the Timestamp [pd.to_datetime(s)] returns, [None]
    when the call (or [strftime] on its result) raises;
    [float_literal s] tells whether [float(s)] accepts the text. *)
Variable to_datetime : string -> option timestamp.
Variable float_literal : string -> bool.

(** The last step of [clean_time_string]: [pd.to_datetime] under
    [try], the text itself under [except]. *)
Definition parse_or_keep (time_str : string) : option string :=
  match to_datetime time_str with
  | Some dt => Some (strftime_HMS dt)
  | None => Some time_str
  end.

(** [clean_time_string] from its second [if] on: time-only strings. *)
Definition time_only (time_str : string) : option string :=
  if contains ":" time_str then
    if List.length (split ":" time_str) =? 3 then Some time_str
    else if List.length (split ":" time_str) =? 2 then Some (time_str ++ ":00")
    else parse_or_keep time_str
  else parse_or_keep time_str.

(** [clean_time_string]: clean and normalize time strings. *)
Definition clean_time_string (time_str : cell) : option string :=
  if isna time_str then None
  else
    let time_str := str time_str in
    if contains "1900-01-01" time_str then
      match re_search_hms time_str with
      | Some m => Some m
      | None => time_only time_str
      end
    else time_only time_str.

(** [float(x)] *)
Definition float (c : cell) : float_value + exn :=
  match c with
  | CStr s => if float_literal s then inl (FloatOf c) else inr ValueError
  | CDate _ => inr TypeError
  | _ => inl (FloatOf c)
  end.

(** The [try] block of the row loop up to the parameters handed to
    [cursor.execute]. *)
Definition prepare (row : route_row) : flow route_record :=
  let name := Name row in
  let origin := Orig row in
  let destination := Dest row in
  miles <- (if notna (Miles row)
            then m <- lift (float (Miles row)) ;; Ok (Some m)
            else Ok None) ;;
  let active := bool_of (Active row) in
  let departure_time := clean_time_string (Depart_Time row) in
  let arrival_time := clean_time_string (Arrive_Time row) in
  match miles with
  | None => Continue
  | Some miles =>
      let distance := miles in
      Ok {| name := name;
            origin := origin;
            destination := destination;
            distance := distance;
            miles := miles;
            active := active;
            departureTime := departure_time;
            arrivalTime := arrival_time |}
  end.

(** [cursor.execute(insert_query, ...)]: a plain [INSERT], on a database
    that executes the statement. *)
Definition execute_insert (t : table) (r : route_record) : table :=
  (t ++ [r])%list.

(** [cursor.execute("DELETE FROM routes")] *)
Definition execute_delete (t : table) : table := [].

(** One iteration of [for index, row in df.iterrows()]. *)
Definition step (st : run) (row : route_row) : run :=
  match prepare row with
  | Ok r =>
      {| routes := execute_insert (routes st) r;
         successful_inserts := successful_inserts st + 1;
         failed_inserts := failed_inserts st |}
  | Continue => st
  | Raise _ =>
      {| routes := routes st;
         successful_inserts := successful_inserts st;
         failed_inserts := failed_inserts st + 1 |}
  end.

(** [main] on a table [db] and a spreadsheet [df]: clear the table, run
    the row loop, commit. *)
Definition main (db : table) (df : list route_row) : run :=
  fold_left step df
    {| routes := execute_delete db;
       successful_inserts := 0;
       failed_inserts := 0 |}.

End WithParsers.

End Routes.

(* ================================================================== *)
(** * import-location-addresses.py *)
(* ================================================================== *)

Module Locations.
Import Py.

Definition nl : string := String "010" EmptyString.   (* line feed *)
Definition dq : string := String "034" EmptyString.   (* double quote *)

Definition lower_char (c : ascii) : ascii :=
  if (65 <=? code c) && (code c <=? 90)
  then ascii_of_nat (code c + 32) else c.

(** [s.lower()] *)
Fixpoint lower (s : string) : string :=
  match s with
  | EmptyString => EmptyString
  | String c s' => String (lower_char c) (lower s')
  end.

(** [clean_location_name]: the key a location is matched by. *)
Definition clean_location_name (name : cell) : string :=
  if isna name then "" else upper (strip (str name)).

(** The value side of [location_mapping]. *)
Record address_info : Type := {
  address : string;
  city : string;
  state : string;
  zipcode : string
}.

(** A [dict] keyed by text, in insertion order. *)
Definition dict (V : Type) : Type := list (string * V).

(** [d[k] = v]: an existing key keeps its place. *)
Fixpoint dict_set {V : Type} (d : dict V) (k : string) (v : V) : dict V :=
  match d with
  | [] => [(k, v)]
  | (k', v') :: d' =>
      if String.eqb k k' then (k, v) :: d' else (k', v') :: dict_set d' k v
  end.

(** A data frame: the column names and, per row, one cell per column. *)
Record dataframe : Type := {
  columns : list string;
  rows : list (list cell)
}.

(** [row[col]] *)
Fixpoint get (cols : list string) (row : list cell) (col : string) : cell :=
  match cols, row with
  | c :: cols', x :: row' => if String.eqb c col then x else get cols' row' col
  | _, _ => CNull
  end.

(** [row[cols[0]] if cols else ""] *)
Definition first_or_empty (columns : list string) (row : list cell)
    (cols : list string) : cell :=
  match cols with
  | c :: _ => get columns row c
  | [] => CStr ""
  end.

(** [str(x) if pd.notna(x) else ""] *)
Definition str_or_empty (x : cell) : string :=
  if notna x then str x else "".

(** [process_locations]: the mapping from location key to address. *)
Definition process_locations (df : dataframe) : dict address_info :=
  fold_left
    (fun location_mapping row =>
       let has word col := contains word (lower col) in
       let location_cols :=
         filter (fun col => has "location" col || has "city" col || has "name" col)
                (columns df) in
       let address_cols :=
         filter (fun col => has "address" col || has "street" col) (columns df) in
       let city_cols := filter (fun col => has "city" col) (columns df) in
       let state_cols := filter (fun col => has "state" col) (columns df) in
       let zip_cols :=
         filter (fun col => has "zip" col || has "postal" col) (columns df) in
       match location_cols with
       | [] => location_mapping
       | location_col :: _ =>
           let location := clean_location_name (get (columns df) row location_col) in
           let address := first_or_empty (columns df) row address_cols in
           let city := first_or_empty (columns df) row city_cols in
           let state := first_or_empty (columns df) row state_cols in
           let zipcode :=
             match zip_cols with
             | c :: _ => CStr (str (get (columns df) row c))
             | [] => CStr ""
             end in
           if truthy_str location then
             dict_set location_mapping location
               {| address := str_or_empty address;
                  city := str_or_empty city;
                  state := str_or_empty state;
                  zipcode := str_or_empty zipcode |}
           else location_mapping
       end)
    (rows df) [].

(** [x.replace("'", "''")] *)
Definition double_quotes (x : string) : string := replace_char "'" "''" x.

(** The two f-strings of [generate_sql_updates]. *)
Definition origin_update (location : string) (address_info : address_info)
    : string :=
  nl ++ "UPDATE routes SET " ++ nl
  ++ "    " ++ dq ++ "originAddress" ++ dq ++ " = '"
  ++ double_quotes (address address_info) ++ "'," ++ nl
  ++ "    " ++ dq ++ "originCity" ++ dq ++ " = '"
  ++ double_quotes (city address_info) ++ "'," ++ nl
  ++ "    " ++ dq ++ "originState" ++ dq ++ " = '"
  ++ double_quotes (state address_info) ++ "'," ++ nl
  ++ "    " ++ dq ++ "originZipCode" ++ dq ++ " = '"
  ++ double_quotes (zipcode address_info) ++ "'" ++ nl
  ++ "WHERE UPPER(origin) = '" ++ location ++ "';" ++ nl.

Definition destination_update (location : string) (address_info : address_info)
    : string :=
  nl ++ "UPDATE routes SET " ++ nl
  ++ "    " ++ dq ++ "destinationAddress" ++ dq ++ " = '"
  ++ double_quotes (address address_info) ++ "'," ++ nl
  ++ "    " ++ dq ++ "destinationCity" ++ dq ++ " = '"
  ++ double_quotes (city address_info) ++ "'," ++ nl
  ++ "    " ++ dq ++ "destinationState" ++ dq ++ " = '"
  ++ double_quotes (state address_info) ++ "'," ++ nl
  ++ "    " ++ dq ++ "destinationZipCode" ++ dq ++ " = '"
  ++ double_quotes (zipcode address_info) ++ "'" ++ nl
  ++ "WHERE UPPER(destination) = '" ++ location ++ "';" ++ nl.

(** [generate_sql_updates]: the UPDATE statements for route locations. *)
Definition generate_sql_updates (location_mapping : dict address_info)
    : list string :=
  fold_left
    (fun sql_statements item =>
       let '(location, address_info) := item in
       (sql_statements
          ++ [origin_update location address_info]
          ++ [destination_update location address_info])%list)
    location_mapping
    ["-- SQL statements to update route locations with address information";
     "-- Generated from Location addresses.xlsx";
     ""].

(** The inner dict of one location under [indent=2], at depth one. *)
Definition json_address (address_info : address_info) : string :=
  "{" ++ nl
  ++ "    " ++ json_string "address" ++ ": "
  ++ json_string (address address_info) ++ "," ++ nl
  ++ "    " ++ json_string "city" ++ ": "
  ++ json_string (city address_info) ++ "," ++ nl
  ++ "    " ++ json_string "state" ++ ": "
  ++ json_string (state address_info) ++ "," ++ nl
  ++ "    " ++ json_string "zipcode" ++ ": "
  ++ json_string (zipcode address_info) ++ nl
  ++ "  }".

(** The items of the outer dict, separated by a comma and a line break. *)
Fixpoint json_items (items : dict address_info) : string :=
  match items with
  | [] => EmptyString
  | (location, address_info) :: rest =>
      "  " ++ json_string location ++ ": " ++ json_address address_info
      ++ match rest with
         | [] => EmptyString
         | _ :: _ => "," ++ nl ++ json_items rest
         end
  end.

(** [generate_json_mapping]:
    [json.dumps(location_mapping, indent=2, ensure_ascii=False)]. *)
Definition generate_json_mapping (location_mapping : dict address_info)
    : string :=
  match location_mapping with
  | [] => "{}"
  | _ :: _ => "{" ++ nl ++ json_items location_mapping ++ nl ++ "}"
  end.

End Locations.

(* ================================================================== *)
(** * Vocabulary of the statements *)
(* ================================================================== *)

Module Spec.
Import Py.

(** ** Text *)

(** A digit-string: every character is a decimal digit. *)
Fixpoint all_digits (s : string) : bool :=
  match s with
  | EmptyString => true
  | String c s' => is_digit c && all_digits s'
  end.

(** The single quotes of a text come in adjacent pairs, as inside a
    well-formed SQL string literal. *)
Fixpoint quotes_paired (s : string) : bool :=
  match s with
  | EmptyString => true
  | String c s' =>
      if Ascii.eqb c "'" then
        match s' with
        | String c' s'' => Ascii.eqb c' "'" && quotes_paired s''
        | EmptyString => false
        end
      else quotes_paired s'
  end.

(** [s] ends with [suffix]. *)
Definition ends_with (suffix s : string) : Prop :=
  exists pre, s = pre ++ suffix.

(** ** The carrier import *)

(** A carrier record the import may persist: it has a name and at least
    one of the two numbers. *)
Definition persistable (r : Carriers.carrier_record) : Prop :=
  Carriers.name r <> ""
  /\ (Carriers.mcNumber r <> None \/ Carriers.dotNumber r <> None).

(** How a carrier row leaves the [try] block. *)
Definition attempted (row : Carriers.carrier_row) : bool :=
  match Carriers.prepare row with Ok _ => true | _ => false end.

Definition raises (row : Carriers.carrier_row) : bool :=
  match Carriers.prepare row with Raise _ => true | _ => false end.


(** [int(x)] raises on a cell that is not null. *)
Definition coercion_fails (x : cell) : bool :=
  notna x && match int x with inl _ => false | inr _ => true end.

(** The records the carrier rows of a spreadsheet are inserted as, in
    row order. *)
Definition carrier_records (df : list Carriers.carrier_row)
    : list Carriers.carrier_record :=
  flat_map
    (fun row =>
       match Carriers.prepare row with
       | Ok r => [r]
       | _ => []
       end) df.

(** The table holds a row whose [mcNumber] is [k]. *)
Definition has_key (k : string) (t : Carriers.table) : bool :=
  existsb (Carriers.same_key k) t.

(** A sequence of inserts. *)
Definition insert_all (t : Carriers.table) (rs : list Carriers.carrier_record)
    : Carriers.table :=
  fold_left Carriers.execute_insert rs t.


(** ** The route import *)


Section Routes.
Variable to_datetime : string -> option Routes.timestamp.
Variable float_literal : string -> bool.

Definition null_miles (row : Routes.route_row) : bool :=
  isna (Routes.Miles row).

(** A valid route row: [Miles] is not null and [float] accepts it. *)
Definition valid_route (row : Routes.route_row) : bool :=
  notna (Routes.Miles row)
  && match Routes.float float_literal (Routes.Miles row) with
     | inl _ => true
     | inr _ => false
     end.

(** A row on which [float] raises. *)
Definition route_raises (row : Routes.route_row) : bool :=
  match Routes.prepare to_datetime float_literal row with
  | Raise _ => true
  | _ => false
  end.

(** The records the rows of a spreadsheet are inserted as, in row
    order. *)
Definition route_records (df : list Routes.route_row) : list Routes.route_record :=
  flat_map
    (fun row =>
       match Routes.prepare to_datetime float_literal row with
       | Ok r => [r]
       | _ => []
       end) df.

End Routes.

(** ** Sample data *)

(** A carrier row with a name, a phone, the two numbers and a status,
    every other cell empty. *)
Definition carrier_row_of (name phone mc dot status : cell)
    : Carriers.carrier_row :=
  {| Carriers.Carrier_Name := name;
     Carriers.Primary_Contact := CNull;
     Carriers.Phone := phone;
     Carriers.Primary_Email := CNull;
     Carriers.MC_Number := mc;
     Carriers.DOT_Number := dot;
     Carriers.Status := status;
     Carriers.Safety_Rating := CNull;
     Carriers.TAX_ID := CNull;
     Carriers.Type_ := CNull;
     Carriers.Street_Address_1 := CNull;
     Carriers.Street_Address_2 := CNull;
     Carriers.City := CNull;
     Carriers.ST := CNull;
     Carriers.Zip := CNull;
     Carriers.Remittance_Contact := CNull;
     Carriers.Remittance_Email := CNull;
     Carriers.Factoring_Company := CNull |}.

(** Sample rows: a carrier with an MC Number, one with a DOT Number
    only, one whose MC Number cell is not a number, one without a name. *)
Definition acme : Carriers.carrier_row :=
  carrier_row_of (CStr "Acme") (CStr "5551234567") (CInt 100) CNull
                 (CStr "Onboarded").

(** The record [acme] is inserted as. *)
Definition acme_record : Carriers.carrier_record :=
  {| Carriers.name := "Acme";
     Carriers.contactPerson := None;
     Carriers.phone := Some "(555) 123-4567";
     Carriers.email := None;
     Carriers.mcNumber := Some "100";
     Carriers.dotNumber := None;
     Carriers.status := "ONBOARDED";
     Carriers.safetyRating := None;
     Carriers.taxId := None;
     Carriers.carrierType := None;
     Carriers.streetAddress1 := None;
     Carriers.streetAddress2 := None;
     Carriers.city := None;
     Carriers.state := None;
     Carriers.zipCode := None;
     Carriers.remittanceContact := None;
     Carriers.remittanceEmail := None;
     Carriers.factoringCompany := None;
     Carriers.onboardingComplete := true |}.

Definition dot_only : Carriers.carrier_row :=
  carrier_row_of (CStr "Bolt Freight") CNull CNull (CInt 555) CNull.

Definition bad_mc : Carriers.carrier_row :=
  carrier_row_of (CStr "Crate Co") CNull (CStr "MC-123456") (CInt 7) CNull.

Definition nameless : Carriers.carrier_row :=
  carrier_row_of CNull CNull (CInt 200) CNull CNull.

(** The parser that accepts no text, for concrete runs that never reach
    a parser. *)
Definition no_datetime : string -> option Routes.timestamp := fun _ => None.
Definition no_float : string -> bool := fun _ => false.

(** Sample rows: a route, and the same route without its mileage. *)
Definition slc_boi : Routes.route_row :=
  {| Routes.Name := CStr "SLC-BOI";
     Routes.Orig := CStr "SLC";
     Routes.Dest := CStr "BOI";
     Routes.Miles := CInt 340;
     Routes.Active := CBool true;
     Routes.Depart_Time := CDate "1900-01-01 08:15:00";
     Routes.Arrive_Time := CStr "14:30" |}.

Definition slc_boi_no_miles : Routes.route_row :=
  {| Routes.Name := CStr "SLC-BOI";
     Routes.Orig := CStr "SLC";
     Routes.Dest := CStr "BOI";
     Routes.Miles := CNull;
     Routes.Active := CBool true;
     Routes.Depart_Time := CDate "1900-01-01 08:15:00";
     Routes.Arrive_Time := CStr "14:30" |}.

(** The record [slc_boi] is inserted as. *)
Definition slc_boi_record : Routes.route_record :=
  {| Routes.name := CStr "SLC-BOI";
     Routes.origin := CStr "SLC";
     Routes.destination := CStr "BOI";
     Routes.distance := Routes.FloatOf (CInt 340);
     Routes.miles := Routes.FloatOf (CInt 340);
     Routes.active := true;
     Routes.departureTime := Some "08:15:00";
     Routes.arrivalTime := Some "14:30:00" |}.

(** A sample address spreadsheet with an apostrophe in the location name
    and in the street, and the address it yields. *)
Definition ohare_df : Locations.dataframe :=
  {| Locations.columns := ["Location"; "Address"; "City"; "State"; "Zip"];
     Locations.rows :=
       [[CStr "O'Hare"; CStr "10000 W O'Hare Ave"; CStr "Chicago";
         CStr "IL"; CInt 60666]] |}.

Definition ohare_info : Locations.address_info :=
  {| Locations.address := "10000 W O'Hare Ave";
     Locations.city := "Chicago";
     Locations.state := "IL";
     Locations.zipcode := "60666" |}.

(** ** Further vocabulary *)

(** No character of the text is whitespace. *)
Fixpoint no_space (s : string) : bool :=
  match s with
  | EmptyString => true
  | String c s' => negb (is_space c) && no_space s'
  end.

(** The text is empty or starts with a character outside [p]. *)
Definition head_outside (p : ascii -> bool) (s : string) : Prop :=
  match s with
  | EmptyString => True
  | String c _ => p c = false
  end.

(** The [mcNumber]s present in a table, in row order. *)
Definition keys (t : Carriers.table) : list string :=
  flat_map
    (fun r => match Carriers.mcNumber r with Some k => [k] | None => [] end) t.

(** A carrier row that leaves the [try] block through [continue]. *)
Definition passed_over (row : Carriers.carrier_row) : bool :=
  match Carriers.prepare row with Continue => true | _ => false end.

(** Reading a SQL string literal body: a doubled quote stands for one. *)
Fixpoint collapse_quotes (s : string) : string :=
  match s with
  | EmptyString => EmptyString
  | String c s' =>
      if Ascii.eqb c "'" then
        match s' with
        | String c' s'' =>
            if Ascii.eqb c' "'" then String c (collapse_quotes s'')
            else String c (collapse_quotes s')
        | EmptyString => String c EmptyString
        end
      else String c (collapse_quotes s')
  end.

(** The value of the item with key [k], as [d.get(k)]. *)
Fixpoint lookup {V : Type} (k : string) (d : Locations.dict V) : option V :=
  match d with
  | [] => None
  | (k', v) :: d' => if String.eqb k k' then Some v else lookup k d'
  end.

(** The item one row of the address spreadsheet yields on its own. *)
Definition location_entry (columns : list string) (row : list cell)
    : option (string * Locations.address_info) :=
  match Locations.process_locations
          {| Locations.columns := columns; Locations.rows := [row] |} with
  | item :: _ => Some item
  | [] => None
  end.

(** The value of a hexadecimal digit, lower case. *)
Definition hex_value (c : ascii) : nat :=
  if is_digit c then code c - 48 else code c - 87.

(** The character a one-letter JSON escape stands for. *)
Definition json_letter (c : ascii) : ascii :=
  if code c =? 98 then ascii_of_nat 8
  else if code c =? 102 then ascii_of_nat 12
  else if code c =? 110 then ascii_of_nat 10
  else if code c =? 114 then ascii_of_nat 13
  else if code c =? 116 then ascii_of_nat 9
  else c.

(** Reading the body of a JSON string back. *)
Fixpoint json_unescape (s : string) : string :=
  match s with
  | EmptyString => EmptyString
  | String c s' =>
      if code c =? 92 then
        match s' with
        | String e s'' =>
            if code e =? 117 then
              match s'' with
              | String _ (String _ (String h (String l s4))) =>
                  String (ascii_of_nat (16 * hex_value h + hex_value l))
                         (json_unescape s4)
              | _ => EmptyString
              end
            else String (json_letter e) (json_unescape s'')
        | EmptyString => EmptyString
        end
      else String c (json_unescape s')
  end.

(** Every character of the text satisfies [p]. *)
Fixpoint every_char (p : ascii -> bool) (s : string) : bool :=
  match s with
  | EmptyString => true
  | String c s' => p c && every_char p s'
  end.

End Spec.

(* ================================================================== *)
(** * Facts about text *)
(* ================================================================== *)

Module TextFacts.
Import Py Spec.

Lemma re_sub_nondigit_digits (s : string) :
  all_digits s = true -> re_sub_nondigit s = s.
Proof.
  induction s as [|c s IH]; simpl; [reflexivity|].
  intros H. apply andb_prop in H as [Hc Hs].
  rewrite Hc. now rewrite IH.
Qed.

Lemma substring_all (s : string) :
  String.substring 0 (String.length s) s = s.
Proof.
  induction s as [|c s IH]; simpl; [reflexivity|]. now rewrite IH.
Qed.

Lemma slice_from_1 (c : ascii) (s : string) :
  slice_from 1 (String c s) = s.
Proof.
  unfold slice_from. simpl. rewrite Nat.sub_0_r. apply substring_all.
Qed.

Lemma append_assoc (a b c : string) : (a ++ b) ++ c = a ++ b ++ c.
Proof.
  induction a as [|x a IH]; simpl; [reflexivity|]. now rewrite IH.
Qed.

Lemma append_empty_r (a : string) : a ++ "" = a.
Proof.
  induction a as [|x a IH]; simpl; [reflexivity|]. now rewrite IH.
Qed.

Lemma prefix_split (p s : string) :
  String.prefix p s = true <-> exists post, s = p ++ post.
Proof.
  revert s. induction p as [|c p IH]; intros s; simpl.
  - split; [intros _; now exists s | intros _; now destruct s].
  - destruct s as [|d s]; simpl.
    + split; [discriminate | intros [post H]; discriminate].
    + destruct (ascii_dec c d) as [->|Hne].
      * rewrite IH. split; intros [post H]; exists post.
        -- now rewrite H.
        -- now injection H.
      * split; [discriminate|].
        intros [post H]. injection H as H1 _. now elim Hne.
Qed.

Lemma contains_unfold (sub s : string) :
  contains sub s
  = String.prefix sub s
    || match s with
       | EmptyString => false
       | String _ s' => contains sub s'
       end.
Proof. now destruct s. Qed.

(** [sub in s] holds exactly when [s] splits around [sub]. *)
Lemma contains_split (sub s : string) :
  contains sub s = true <-> exists pre post, s = pre ++ sub ++ post.
Proof.
  split.
  - induction s as [|c s IH]; rewrite contains_unfold; intros H.
    + rewrite orb_false_r in H. apply prefix_split in H as [post H].
      now exists "", post.
    + apply orb_prop in H as [H|H].
      * apply prefix_split in H as [post H]. now exists "", post.
      * destruct (IH H) as (pre & post & ->). now exists (String c pre), post.
  - intros (pre & post & ->).
    induction pre as [|c pre IH].
    + rewrite contains_unfold.
      replace (String.prefix sub ("" ++ sub ++ post)) with true; [reflexivity|].
      symmetry. apply prefix_split. now exists post.
    + rewrite contains_unfold. cbn [append]. rewrite IH. apply orb_true_r.
Qed.

Lemma contains_tail (a b s : string) :
  contains (a ++ b) s = true -> contains b s = true.
Proof.
  intros H. apply contains_split in H as (pre & post & ->).
  apply contains_split. exists (pre ++ a), post.
  now rewrite !append_assoc.
Qed.

End TextFacts.

(* ================================================================== *)
(** * The carrier field normalisers *)
(* ================================================================== *)

Module CarrierFields.
Import Py Spec TextFacts Carriers.

Example clean_phone_dashes :
  clean_phone (CStr "555-123-4567") = Some "(555) 123-4567".
Proof. reflexivity. Qed.

Example clean_phone_country_code :
  clean_phone (CStr "+1 (555) 123-4567") = Some "(555) 123-4567".
Proof. reflexivity. Qed.

Example clean_phone_int_cell :
  clean_phone (CInt 5551234567) = Some "(555) 123-4567".
Proof. reflexivity. Qed.

Example clean_phone_short : clean_phone (CStr "ext. 1234") = Some "1234".
Proof. reflexivity. Qed.

Example clean_phone_no_digit : clean_phone (CStr "n/a") = None.
Proof. reflexivity. Qed.

(** The format [(AAA) BBB-CCCC] of a ten-character text. *)
Lemma format_ten (r : string) :
  String.length r = 10 ->
  "(" ++ slice 0 3 r ++ ") " ++ slice 3 6 r ++ "-" ++ slice_from 6 r
  = "(" ++ slice 0 3 r ++ ") " ++ slice 3 6 r ++ "-" ++ slice 6 10 r.
Proof. intros H. unfold slice_from, slice. now rewrite H. Qed.

(** What [clean_phone] does with a cell that is not null, by the digits
    left of its text. *)
Lemma clean_phone_residue (c : cell) :
  isna c = false ->
  let r := re_sub_nondigit (str c) in
  clean_phone c =
    if String.length r =? 10 then
      Some ("(" ++ slice 0 3 r ++ ") " ++ slice 3 6 r ++ "-" ++ slice 6 10 r)
    else if (String.length r =? 11) && startswith "1" r then
      Some ("(" ++ slice 1 4 r ++ ") " ++ slice 4 7 r ++ "-" ++ slice 7 11 r)
    else if String.eqb r "" then None else Some r.
Proof.
  intros Hna r. subst r. unfold clean_phone. rewrite Hna.
  generalize (re_sub_nondigit (str c)) as r. intros r.
  destruct (String.length r =? 10) eqn:H10.
  - apply Nat.eqb_eq in H10. now rewrite format_ten.
  - destruct (String.length r =? 11) eqn:H11; cbn [andb].
    + destruct (startswith "1" r) eqn:H1.
      * apply Nat.eqb_eq in H11.
        destruct r as [|a r']; [discriminate|].
        rewrite slice_from_1. injection H11 as H11.
        rewrite format_ten by exact H11.
        reflexivity.
      * unfold truthy_str. now destruct (String.eqb r "").
    + unfold truthy_str. now destruct (String.eqb r "").
Qed.

(** C7. [clean_phone] formats every 10-digit digit-string [D] as
    [(D[0:3]) D[3:6]-D[6:10]]; on an 11-digit digit-string that starts
    with [1] it returns what it returns on the 10-digit tail; for any
    other non-empty digit residue it returns the residue; for an empty
    residue and for a null cell it returns [None].  It is a total
    function, so it never raises. *)
Theorem clean_phone_formats :
  (forall D, String.length D = 10 -> all_digits D = true ->
     clean_phone (CStr D)
     = Some ("(" ++ slice 0 3 D ++ ") " ++ slice 3 6 D ++ "-" ++ slice 6 10 D))
  /\ (forall D, String.length D = 11 -> all_digits D = true ->
        startswith "1" D = true ->
        clean_phone (CStr D) = clean_phone (CStr (slice_from 1 D)))
  /\ (forall c, isna c = false ->
        String.length (re_sub_nondigit (str c)) <> 10 ->
        ~ (String.length (re_sub_nondigit (str c)) = 11
           /\ startswith "1" (re_sub_nondigit (str c)) = true) ->
        re_sub_nondigit (str c) <> "" ->
        clean_phone c = Some (re_sub_nondigit (str c)))
  /\ (forall c, isna c = false -> re_sub_nondigit (str c) = "" ->
        clean_phone c = None)
  /\ clean_phone CNull = None.
Proof.
  split; [|split; [|split; [|split]]].
  - intros D Hlen Hd.
    rewrite clean_phone_residue by reflexivity. simpl str.
    rewrite (re_sub_nondigit_digits D Hd), Hlen. reflexivity.
  - intros D Hlen Hd H1.
    destruct D as [|a D']; [discriminate|].
    injection Hlen as Hlen. simpl in Hd. apply andb_prop in Hd as [Ha Hd].
    rewrite slice_from_1.
    rewrite !clean_phone_residue by reflexivity. simpl str.
    rewrite (re_sub_nondigit_digits D' Hd).
    rewrite (re_sub_nondigit_digits (String a D')) by (simpl; now rewrite Ha, Hd).
    rewrite H1. simpl String.length. rewrite Hlen. simpl.
    unfold slice. simpl. reflexivity.
  - intros c Hna H10 H11 Hne.
    rewrite clean_phone_residue by exact Hna.
    apply Nat.eqb_neq in H10. rewrite H10.
    destruct (String.length (re_sub_nondigit (str c)) =? 11) eqn:E11; simpl.
    + destruct (startswith "1" (re_sub_nondigit (str c))) eqn:E1.
      * apply Nat.eqb_eq in E11. elim H11. now split.
      * apply String.eqb_neq in Hne. now rewrite Hne.
    + apply String.eqb_neq in Hne. now rewrite Hne.
  - intros c Hna He.
    rewrite clean_phone_residue by exact Hna. now rewrite He.
  - reflexivity.
Qed.

Lemma clean_phone_formats_witness :
  clean_phone (CStr "5551234567") = Some "(555) 123-4567"
  /\ clean_phone (CStr "15551234567") = clean_phone (CStr "5551234567")
  /\ clean_phone (CStr "555-1234") = Some "5551234"
  /\ clean_phone (CStr "unknown") = None.
Proof.
  destruct clean_phone_formats as (H10 & H11 & Hraw & Hnone & _).
  split; [|split; [|split]].
  - apply (H10 "5551234567"); reflexivity.
  - apply (H11 "15551234567"); reflexivity.
  - apply (Hraw (CStr "555-1234")).
    + reflexivity.
    + simpl; lia.
    + simpl; intros [H _]; lia.
    + discriminate.
  - apply (Hnone (CStr "unknown")); reflexivity.
Defined.

Example map_status_mixed_case : map_status (CStr " onboarded ") = "ONBOARDED".
Proof. reflexivity. Qed.

Example map_status_other : map_status (CStr "In review") = "PENDING".
Proof. reflexivity. Qed.

(** C8. [map_status] is total with values in PENDING, ONBOARDED and
    NOT_ONBOARDED; a null or empty cell gives PENDING; the test for
    "NOT ONBOARDED" comes first, so a text that contains it (and hence
    also contains "ONBOARDED") gives NOT_ONBOARDED, and "Not Onboarded"
    gives NOT_ONBOARDED and not ONBOARDED. *)
Theorem map_status_total :
  (forall c, map_status c = "PENDING" \/ map_status c = "ONBOARDED"
             \/ map_status c = "NOT_ONBOARDED")
  /\ map_status CNull = "PENDING"
  /\ map_status (CStr "") = "PENDING"
  /\ (forall c, isna c = false ->
        contains "NOT ONBOARDED" (upper (strip (str c))) = true ->
        contains "ONBOARDED" (upper (strip (str c))) = true
        /\ map_status c = "NOT_ONBOARDED")
  /\ (forall c, isna c = false ->
        contains "NOT ONBOARDED" (upper (strip (str c))) = false ->
        contains "ONBOARDED" (upper (strip (str c))) = true ->
        map_status c = "ONBOARDED")
  /\ map_status (CStr "Not Onboarded") = "NOT_ONBOARDED"
  /\ map_status (CStr "Not Onboarded") <> "ONBOARDED".
Proof.
  split; [|split; [|split; [|split; [|split; [|split]]]]].
  - intros c. unfold map_status.
    destruct (isna c); [now left|].
    destruct (contains "NOT ONBOARDED" _); [now right; right|].
    destruct (contains "ONBOARDED" _); [now right; left | now left].
  - reflexivity.
  - reflexivity.
  - intros c Hna H. split.
    + apply (contains_tail "NOT " "ONBOARDED"). exact H.
    + unfold map_status. now rewrite Hna, H.
  - intros c Hna Hnot Hon. unfold map_status. now rewrite Hna, Hnot, Hon.
  - reflexivity.
  - discriminate.
Qed.

Lemma map_status_total_witness :
  map_status (CStr "NOT ONBOARDED yet") = "NOT_ONBOARDED"
  /\ map_status (CStr "Onboarded 2024") = "ONBOARDED".
Proof.
  destruct map_status_total as (_ & _ & _ & Hnot & Hon & _).
  split.
  - apply (Hnot (CStr "NOT ONBOARDED yet")); reflexivity.
  - apply (Hon (CStr "Onboarded 2024")); reflexivity.
Defined.

End CarrierFields.

(* ================================================================== *)
(** * The carrier row loop *)
(* ================================================================== *)

Module CarrierRun.
Import Py Spec TextFacts Carriers.

(** ** One row *)

Lemma clean_string_some (c : cell) (s : string) :
  clean_string c = Some s ->
  isna c = false /\ s = strip (str c) /\ s <> "".
Proof.
  unfold clean_string, truthy_str.
  destruct (isna c); [discriminate|].
  destruct (String.eqb (strip (str c)) "") eqn:E; simpl; [discriminate|].
  intros H. injection H as <-. apply String.eqb_neq in E. auto.
Qed.

(** [number_field] never hits [continue]; it is [None] on a null cell,
    raises when [int] does, and is a non-empty text otherwise. *)
Lemma number_field_cases (x : cell) :
  (isna x = true /\ number_field x = Ok None)
  \/ (isna x = false /\ exists z, int x = inl z
        /\ number_field x = Ok (clean_string (CStr (str_int z))))
  \/ (isna x = false /\ exists e, int x = inr e /\ number_field x = Raise e).
Proof.
  unfold number_field, notna.
  destruct (isna x); simpl; [now left|right].
  destruct (int x) as [z|e]; simpl; [left|right]; split; eauto.
Qed.

Lemma number_field_raises (x : cell) (e : exn) :
  number_field x = Raise e <-> (notna x = true /\ int x = inr e).
Proof.
  unfold number_field.
  destruct (notna x); simpl.
  - destruct (int x) as [z|e']; simpl; split.
    + discriminate.
    + intros [_ H]; discriminate.
    + intros H; injection H as ->; auto.
    + intros [_ H]; injection H as ->; reflexivity.
  - split; [discriminate | intros [H _]; discriminate].
Qed.

(** What a row that reaches [cursor.execute] looks like. *)
Lemma prepare_ok (row : carrier_row) (r : carrier_record) :
  prepare row = Ok r ->
  clean_string (Carrier_Name row) = Some (name r)
  /\ number_field (MC_Number row) = Ok (mcNumber r)
  /\ number_field (DOT_Number row) = Ok (dotNumber r)
  /\ (truthy (mcNumber r) = true \/ truthy (dotNumber r) = true).
Proof.
  unfold prepare.
  destruct (clean_string (Carrier_Name row)) as [n|]; [|discriminate].
  destruct (negb (truthy_str n)); [discriminate|].
  destruct (number_field (MC_Number row)) as [mc| |e]; simpl; try discriminate.
  destruct (number_field (DOT_Number row)) as [dot| |e]; simpl; try discriminate.
  destruct (negb (truthy mc) && negb (truthy dot)) eqn:E; [discriminate|].
  intros H. injection H as <-. simpl.
  repeat split.
  apply andb_false_iff in E as [E|E]; apply negb_false_iff in E; auto.
Qed.

(** A row raises exactly when it has a name and one of the two numeric
    coercions fails, the MC Number being tried first. *)
Lemma prepare_raises (row : carrier_row) (e : exn) :
  prepare row = Raise e <->
  truthy (clean_string (Carrier_Name row)) = true
  /\ (number_field (MC_Number row) = Raise e
      \/ ((exists mc, number_field (MC_Number row) = Ok mc)
          /\ number_field (DOT_Number row) = Raise e)).
Proof.
  unfold prepare.
  destruct (clean_string (Carrier_Name row)) as [n|]; simpl.
  2:{ split; [discriminate | intros [H _]; discriminate]. }
  destruct (truthy_str n); simpl.
  2:{ split; [discriminate | intros [H _]; discriminate]. }
  destruct (number_field (MC_Number row)) as [mc| |e1]; simpl.
  - destruct (number_field (DOT_Number row)) as [dot| |e2]; simpl.
    + destruct (negb (truthy mc) && negb (truthy dot)); split;
        try discriminate; intros [_ [H|[_ H]]]; discriminate.
    + split; [discriminate | intros [_ [H|[_ H]]]; discriminate].
    + split.
      * intros H; injection H as ->. split; [reflexivity|]. right. eauto.
      * intros [_ [H|[_ H]]]; [discriminate | now injection H as ->].
  - split; [discriminate|].
    intros [_ [H|[[mc H] _]]]; discriminate.
  - split.
    + intros H; injection H as ->. auto.
    + intros [_ [H|[[mc H] _]]]; [now injection H as -> | discriminate].
Qed.

(** ** The table *)

Lemma has_key_app (k : string) (t u : table) :
  has_key k (t ++ u)%list = has_key k t || has_key k u.
Proof. apply existsb_app. Qed.







(** ** The loop *)

(** The loop inserts the records of the rows that reach
    [cursor.execute], in row order, and counts those rows and the raising
    rows. *)
Lemma carrier_loop_state (df : list carrier_row) :
  forall st,
  carriers (fold_left step df st) = insert_all (carriers st) (carrier_records df)
  /\ successful_inserts (fold_left step df st)
     = successful_inserts st + length (filter attempted df)
  /\ failed_inserts (fold_left step df st)
     = failed_inserts st + length (filter raises df).
Proof.
  induction df as [|row df IH]; intros st; simpl.
  - repeat split; lia.
  - destruct (IH (step st row)) as (Ht & Hs & Hf).
    rewrite Ht, Hs, Hf. unfold step, attempted, raises, insert_all.
    destruct (prepare row) as [r| |e]; simpl; repeat split; lia.
Qed.

Lemma carrier_main_state (db : table) (df : list carrier_row) :
  carriers (main db df) = insert_all db (carrier_records df)
  /\ successful_inserts (main db df) = length (filter attempted df)
  /\ failed_inserts (main db df) = length (filter raises df).
Proof.
  unfold main.
  destruct (carrier_loop_state df
    {| carriers := db; successful_inserts := 0; failed_inserts := 0 |})
    as (Ht & Hs & Hf).
  simpl in *. auto.
Qed.

Lemma carrier_records_length (df : list carrier_row) :
  length (carrier_records df) = length (filter attempted df).
Proof.
  induction df as [|row df IH]; simpl; [reflexivity|].
  unfold attempted at 1.
  rewrite length_app.
  destruct (prepare row); simpl; lia.
Qed.





End CarrierRun.

(* ================================================================== *)
(** * The carrier import *)
(* ================================================================== *)

Module CarrierImport.
Import Py Spec TextFacts Carriers CarrierRun.

(** The end-to-end scenario: one carrier is persisted, the row without a
    name is passed over. *)
Example acme_then_nameless :
  main [] [acme; nameless]
  = {| carriers := [acme_record];
       successful_inserts := 1;
       failed_inserts := 0 |}.
Proof. reflexivity. Qed.

(** C1. Loading the same carrier source twice does not always leave the
    row count of loading it once: a row with a DOT Number and no MC
    Number is inserted again by the second run, because a null
    [mcNumber] never conflicts.  After one run of the spreadsheet
    [[dot_only]] on an empty table there is one row, after the second
    run there are two. *)
Theorem reload_duplicates_dot_only_row :
  length (carriers (main [] [dot_only])) = 1
  /\ length (carriers (main (carriers (main [] [dot_only])) [dot_only])) = 2.
Proof. split; reflexivity. Qed.




Lemma coercion_fails_raises (x : cell) :
  coercion_fails x = true <-> exists e, number_field x = Raise e.
Proof.
  unfold coercion_fails. split.
  - intros H. apply andb_prop in H as [Hn Hi].
    destruct (int x) as [z|e] eqn:E; [discriminate|].
    exists e. now apply number_field_raises.
  - intros [e H]. apply number_field_raises in H as [Hn Hi].
    now rewrite Hn, Hi.
Qed.

Lemma coercion_passes (x : cell) :
  coercion_fails x = false -> exists o, number_field x = Ok o.
Proof.
  unfold coercion_fails, number_field.
  destruct (notna x); simpl; [|eauto].
  destruct (int x); simpl; [eauto | discriminate].
Qed.

(** C4, as stated, fails: the MC Number cell of [bad_mc] is the text
    "MC-123456", [int] raises on it, and the row is counted in
    [failed_inserts]. *)
Lemma failed_coercion_counted_as_failure :
  coercion_fails (MC_Number bad_mc) = true
  /\ failed_inserts (main [] [bad_mc]) = 1
  /\ carriers (main [] [bad_mc]) = [].
Proof. split; [reflexivity | split; reflexivity]. Qed.

(** C4, amended.  When the numeric coercion of the MC Number or DOT
    Number cell of a named row fails, the exception is caught at the row
    boundary: the row is counted in [failed_inserts], nothing is
    inserted for it, and the run goes on with the next row. *)
Theorem coercion_failure_is_a_row_failure (st : run) (row : carrier_row) :
  truthy (clean_string (Carrier_Name row)) = true ->
  coercion_fails (MC_Number row) = true
  \/ coercion_fails (DOT_Number row) = true ->
  step st row
  = {| carriers := carriers st;
       successful_inserts := successful_inserts st;
       failed_inserts := failed_inserts st + 1 |}
  /\ (forall db df1 df2,
        main db (df1 ++ row :: df2)%list
        = fold_left step df2
            {| carriers := carriers (main db df1);
               successful_inserts := successful_inserts (main db df1);
               failed_inserts := failed_inserts (main db df1) + 1 |}).
Proof.
  intros Hname Hfail.
  assert (Hr : exists e, prepare row = Raise e).
  { destruct (coercion_fails (MC_Number row)) eqn:Emc.
    - apply coercion_fails_raises in Emc as [e He].
      exists e. apply prepare_raises. auto.
    - destruct Hfail as [Hmc|Hdot]; [discriminate|].
      apply coercion_passes in Emc.
      apply coercion_fails_raises in Hdot as [e He].
      exists e. apply prepare_raises. auto. }
  destruct Hr as [e He].
  assert (Hstep : forall s, step s row
            = {| carriers := carriers s;
                 successful_inserts := successful_inserts s;
                 failed_inserts := failed_inserts s + 1 |}).
  { intros s. unfold step. now rewrite He. }
  split; [apply Hstep|].
  intros db df1 df2. unfold main.
  rewrite fold_left_app. simpl. now rewrite Hstep.
Qed.

Lemma coercion_failure_is_a_row_failure_witness :
  step (main [] [acme]) bad_mc
  = {| carriers := [acme_record];
       successful_inserts := 1;
       failed_inserts := 1 |}
  /\ main [] [bad_mc; acme]
     = {| carriers := [acme_record];
          successful_inserts := 1;
          failed_inserts := 1 |}.
Proof.
  destruct (coercion_failure_is_a_row_failure (main [] [acme]) bad_mc)
    as [Hstep Hrun].
  - reflexivity.
  - left. reflexivity.
  - split.
    + exact Hstep.
    + exact (Hrun [] [] [acme]).
Defined.

(** A row without a name is passed over before any coercion is tried,
    whatever its number cells hold. *)
Lemma nameless_row_passed_over (st : run) (row : carrier_row) :
  truthy (clean_string (Carrier_Name row)) = false -> step st row = st.
Proof.
  intros H. unfold step, prepare.
  destruct (clean_string (Carrier_Name row)) as [n|]; [|reflexivity].
  simpl in H. now rewrite H.
Qed.

Lemma in_insert_all (rs : list carrier_record) :
  forall t r, In r (insert_all t rs) -> In r t \/ In r rs.
Proof.
  induction rs as [|r' rs IH]; intros t r H; simpl in *; [auto|].
  apply IH in H as [H|H]; [|auto].
  unfold execute_insert in H.
  destruct (conflicts t r'); [auto|].
  apply in_app_or in H as [H|[H|[]]]; auto.
Qed.

Lemma in_carrier_records (df : list carrier_row) (r : carrier_record) :
  In r (carrier_records df) -> exists row, In row df /\ prepare row = Ok r.
Proof.
  unfold carrier_records. rewrite in_flat_map.
  intros (row & Hin & H). exists row. split; [exact Hin|].
  destruct (prepare row) as [r'| |e]; simpl in H; try contradiction.
  destruct H as [->|[]]. reflexivity.
Qed.

Lemma truthy_not_none (o : option string) : truthy o = true -> o <> None.
Proof. destruct o; [discriminate | discriminate]. Qed.

(** C6. The carrier import never persists a row without a carrier name
    nor a row whose [mcNumber] and [dotNumber] are both null after
    normalization.  A row reaches [cursor.execute] only when its trimmed
    name is not empty and at least one of the two numbers is present;
    the table changes only on such a row; and every row of the table
    after a run was there before or has a name and a number. *)
Theorem persisted_carrier_has_name_and_number :
  (forall row r,
     prepare row = Ok r ->
     isna (Carrier_Name row) = false
     /\ name r = strip (str (Carrier_Name row))
     /\ name r <> ""
     /\ number_field (MC_Number row) = Ok (mcNumber r)
     /\ number_field (DOT_Number row) = Ok (dotNumber r)
     /\ (mcNumber r <> None \/ dotNumber r <> None))
  /\ (forall st row,
        carriers (step st row) <> carriers st -> exists r, prepare row = Ok r)
  /\ (forall db df r,
        In r (carriers (main db df)) -> In r db \/ persistable r).
Proof.
  assert (H1 : forall row r,
     prepare row = Ok r ->
     isna (Carrier_Name row) = false
     /\ name r = strip (str (Carrier_Name row))
     /\ name r <> ""
     /\ number_field (MC_Number row) = Ok (mcNumber r)
     /\ number_field (DOT_Number row) = Ok (dotNumber r)
     /\ (mcNumber r <> None \/ dotNumber r <> None)).
  { intros row r H. apply prepare_ok in H as (Hn & Hmc & Hdot & Hnum).
    apply clean_string_some in Hn as (Hna & Hs & Hne).
    repeat (split; [assumption|]).
    destruct Hnum as [H|H]; [left|right]; now apply truthy_not_none. }
  split; [exact H1|split].
  - intros st row Hne. unfold step in Hne.
    destruct (prepare row) as [r| |e]; [eauto| |]; now elim Hne.
  - intros db df r Hin.
    destruct (carrier_main_state db df) as (Ht & _). rewrite Ht in Hin.
    apply in_insert_all in Hin as [Hin|Hin]; [now left|right].
    apply in_carrier_records in Hin as (row & _ & Hp).
    destruct (H1 row r Hp) as (_ & _ & Hname & _ & _ & Hnum).
    split; assumption.
Qed.

Lemma persisted_carrier_has_name_and_number_witness :
  name acme_record <> ""
  /\ (mcNumber acme_record <> None \/ dotNumber acme_record <> None).
Proof.
  destruct persisted_carrier_has_name_and_number as (H & _ & _).
  destruct (H acme acme_record) as (_ & _ & Hname & _ & _ & Hnum).
  - reflexivity.
  - split; assumption.
Defined.

Example number_less_row_passed_over :
  main [] [carrier_row_of (CStr "No Numbers Inc") (CStr "5551234567")
             CNull CNull (CStr "Onboarded")]
  = {| carriers := []; successful_inserts := 0; failed_inserts := 0 |}.
Proof. reflexivity. Qed.

End CarrierImport.

(* ================================================================== *)
(** * The route time normaliser *)
(* ================================================================== *)

Module RouteFields.
Import Py Spec TextFacts Routes.

(** A match of the pattern is the first eight characters, and they match
    the pattern themselves. *)
Lemma match_hms_some (s tok : string) :
  match_hms s = Some tok ->
  String.length tok = 8
  /\ match_hms tok = Some tok
  /\ exists post, s = tok ++ post.
Proof.
  unfold match_hms at 1.
  destruct s as [|h1 [|h2 [|c1 [|m1 [|m2 [|c2 [|s1 [|s2 post]]]]]]]];
    try discriminate.
  destruct (is_digit h1 && is_digit h2 && Ascii.eqb c1 ":"
            && is_digit m1 && is_digit m2 && Ascii.eqb c2 ":"
            && is_digit s1 && is_digit s2) eqn:E; [|discriminate].
  intros H. injection H as <-.
  cbn [String.substring].
  replace (String.substring 0 0 post) with "" by now destruct post.
  split; [reflexivity|split].
  - unfold match_hms. cbn [String.substring]. now rewrite E.
  - exists post. reflexivity.
Qed.


Section WithParser.
Variable to_datetime : string -> option timestamp.




End WithParser.

Example clean_time_hh_mm :
  clean_time_string no_datetime (CStr "08:15") = Some "08:15:00".
Proof. reflexivity. Qed.

Example clean_time_placeholder_date :
  clean_time_string no_datetime (CDate "1900-01-01 08:15:00") = Some "08:15:00".
Proof. reflexivity. Qed.

(** With two tokens in the text, the leftmost one is returned. *)
Example clean_time_two_tokens :
  clean_time_string no_datetime (CStr "1900-01-01 00:00:00 08:15:00")
  = Some "00:00:00".
Proof. reflexivity. Qed.

(** A placeholder date without a token falls through to the next test. *)
Example clean_time_placeholder_short :
  clean_time_string no_datetime (CStr "1900-01-01 8:15") = Some "1900-01-01 8:15:00".
Proof. reflexivity. Qed.

Example clean_time_parsed :
  clean_time_string
    (fun _ => Some {| hour := 8; minute := 5; second := 0 |}) (CStr "8.05 am")
  = Some "08:05:00".
Proof. reflexivity. Qed.



End RouteFields.

(* ================================================================== *)
(** * The route import *)
(* ================================================================== *)

Module RouteImport.
Import Py Spec TextFacts Routes.

Section WithParsers.
Variable to_datetime : string -> option timestamp.
Variable float_literal : string -> bool.

Let prepare := Routes.prepare to_datetime float_literal.
Let step := Routes.step to_datetime float_literal.
Let main := Routes.main to_datetime float_literal.

(** A row is passed over when [Miles] is null, raises when [float]
    does, and is inserted otherwise. *)
Lemma route_prepare_cases (row : route_row) :
  (isna (Miles row) = true /\ prepare row = Continue)
  \/ (isna (Miles row) = false
      /\ exists e, float float_literal (Miles row) = inr e
                   /\ prepare row = Raise e)
  \/ (isna (Miles row) = false
      /\ exists m r, float float_literal (Miles row) = inl m
                     /\ prepare row = Ok r /\ miles r = m /\ distance r = m).
Proof.
  unfold prepare, Routes.prepare, notna.
  destruct (isna (Miles row)); simpl; [now left|right].
  destruct (float float_literal (Miles row)) as [m|e]; simpl.
  - right. split; [reflexivity|]. eexists m, _. repeat split.
  - left. split; [reflexivity|]. now exists e.
Qed.

Lemma null_miles_step (st : run) (row : route_row) :
  isna (Miles row) = true -> step st row = st.
Proof.
  intros H. unfold step, Routes.step.
  destruct (route_prepare_cases row) as [[_ Hp]|[[Hn _]|[Hn _]]];
    [|congruence|congruence].
  unfold prepare in Hp. now rewrite Hp.
Qed.

Lemma valid_route_prepare (row : route_row) :
  valid_route float_literal row
  = match prepare row with Ok _ => true | _ => false end.
Proof.
  unfold valid_route, notna.
  destruct (route_prepare_cases row)
    as [[Hn Hp]|[[Hn (e & Hf & Hp)]|[Hn (m & r & Hf & Hp & _)]]];
    rewrite Hn, Hp; simpl; [reflexivity | |]; now rewrite Hf.
Qed.

Lemma route_raises_prepare (row : route_row) :
  route_raises to_datetime float_literal row
  = match prepare row with Raise _ => true | _ => false end.
Proof. reflexivity. Qed.

Lemma route_loop_state (df : list route_row) :
  forall st,
  routes (fold_left step df st)
  = (routes st ++ route_records to_datetime float_literal df)%list
  /\ successful_inserts (fold_left step df st)
     = successful_inserts st + length (filter (valid_route float_literal) df)
  /\ failed_inserts (fold_left step df st)
     = failed_inserts st
       + length (filter (route_raises to_datetime float_literal) df).
Proof.
  induction df as [|row df IH]; intros st; simpl.
  - rewrite app_nil_r. repeat split; lia.
  - destruct (IH (step st row)) as (Ht & Hs & Hf).
    rewrite Ht, Hs, Hf. clear IH Ht Hs Hf.
    rewrite valid_route_prepare, route_raises_prepare.
    unfold step, Routes.step, execute_insert, prepare.
    destruct (Routes.prepare to_datetime float_literal row) as [r| |e]; simpl.
    + split; [now rewrite <- app_assoc | split; lia].
    + split; [reflexivity | split; lia].
    + split; [reflexivity | split; lia].
Qed.

Lemma rows_partition (df : list route_row) :
  length df
  = length (filter (valid_route float_literal) df)
    + length (filter (route_raises to_datetime float_literal) df)
    + length (filter null_miles df).
Proof.
  induction df as [|row df IH]; simpl; [reflexivity|].
  rewrite valid_route_prepare, route_raises_prepare.
  unfold null_miles at 1.
  destruct (route_prepare_cases row)
    as [[Hn Hp]|[[Hn (e & Hf & Hp)]|[Hn (m & r & Hf & Hp & _)]]];
    rewrite Hn, Hp; simpl; lia.
Qed.


Lemma in_route_records (df : list route_row) (r : route_record) :
  In r (route_records to_datetime float_literal df) ->
  exists row, In row df /\ isna (Miles row) = false /\ prepare row = Ok r.
Proof.
  unfold route_records. rewrite in_flat_map.
  intros (row & Hin & H). exists row. split; [exact Hin|].
  destruct (route_prepare_cases row)
    as [[Hn Hp]|[[Hn (e & Hf & Hp)]|[Hn (m & r' & Hf & Hp & _)]]];
    unfold prepare in *; rewrite Hp in H; simpl in H; try contradiction.
  destruct H as [->|[]]. split; [exact Hn | exact Hp].
Qed.

Lemma route_main_state (db : table) (df : list route_row) :
  routes (main db df) = route_records to_datetime float_literal df
  /\ successful_inserts (main db df)
     = length (filter (valid_route float_literal) df)
  /\ failed_inserts (main db df)
     = length (filter (route_raises to_datetime float_literal) df).
Proof.
  unfold main, Routes.main.
  destruct (route_loop_state df
    {| routes := execute_delete db;
       successful_inserts := 0;
       failed_inserts := 0 |}) as (Ht & Hs & Hf).
  unfold step in *. simpl in *. auto.
Qed.

End WithParsers.

Example route_run :
  Routes.main no_datetime no_float [] [slc_boi; slc_boi_no_miles]
  = {| routes := [slc_boi_record];
       successful_inserts := 1;
       failed_inserts := 0 |}.
Proof. reflexivity. Qed.

(** C3, as stated, fails: the run keeps two counters and neither of them
    counts the row with the null [Miles] cell. *)
Lemma null_miles_row_in_no_counter :
  length (filter null_miles [slc_boi_no_miles]) = 1
  /\ successful_inserts
       (Routes.main no_datetime no_float [] [slc_boi_no_miles]) = 0
  /\ failed_inserts
       (Routes.main no_datetime no_float [] [slc_boi_no_miles]) = 0.
Proof. split; [reflexivity | split; reflexivity]. Qed.

(** C3, amended.  A route row whose [Miles] cell is null is passed over:
    it changes neither the table nor the two counters of the run,
    [successful_inserts] and [failed_inserts].  The run has no counter
    for such rows; their number is the number of rows less the two
    counters, and every row of the table after the run comes from a row
    whose [Miles] cell is not null. *)
Theorem null_miles_row_passed_over
    (to_datetime : string -> option timestamp)
    (float_literal : string -> bool) :
  (forall st row,
     isna (Miles row) = true ->
     Routes.step to_datetime float_literal st row = st)
  /\ (forall db df,
        length df
        = successful_inserts (Routes.main to_datetime float_literal db df)
          + failed_inserts (Routes.main to_datetime float_literal db df)
          + length (filter null_miles df))
  /\ (forall db df r,
        In r (routes (Routes.main to_datetime float_literal db df)) ->
        exists row,
          In row df /\ isna (Miles row) = false
          /\ Routes.prepare to_datetime float_literal row = Ok r).
Proof.
  split; [|split].
  - intros st row H. now apply null_miles_step.
  - intros db df.
    destruct (route_main_state to_datetime float_literal db df) as (_ & Hs & Hf).
    rewrite Hs, Hf. apply rows_partition.
  - intros db df r Hin.
    destruct (route_main_state to_datetime float_literal db df) as (Ht & _).
    rewrite Ht in Hin. now apply in_route_records.
Qed.

Lemma null_miles_row_passed_over_witness :
  Routes.step no_datetime no_float
    (Routes.main no_datetime no_float [] [slc_boi]) slc_boi_no_miles
  = Routes.main no_datetime no_float [] [slc_boi]
  /\ exists row,
       In row [slc_boi; slc_boi_no_miles] /\ isna (Miles row) = false
       /\ Routes.prepare no_datetime no_float row = Ok slc_boi_record.
Proof.
  destruct (null_miles_row_passed_over no_datetime no_float)
    as (Hstep & _ & Hin).
  split.
  - apply Hstep. reflexivity.
  - apply (Hin [] [slc_boi; slc_boi_no_miles] slc_boi_record).
    left. reflexivity.
Defined.


(** A table with rows in it before the run, a spreadsheet of one valid
    row and one without mileage: one row after the run. *)
Example route_rerun :
  routes (Routes.main no_datetime no_float
            [slc_boi_record; slc_boi_record; slc_boi_record]
            [slc_boi_no_miles; slc_boi])
  = [slc_boi_record].
Proof. reflexivity. Qed.

End RouteImport.

(* ================================================================== *)
(** * The generated address updates *)
(* ================================================================== *)

Module LocationUpdates.
Import Py Spec TextFacts Locations.

Lemma length_append (a b : string) :
  String.length (a ++ b) = String.length a + String.length b.
Proof.
  induction a as [|c a IH]; simpl; [reflexivity|]. now rewrite IH.
Qed.

Lemma replace_char_append (old : ascii) (new a b : string) :
  replace_char old new (a ++ b)
  = replace_char old new a ++ replace_char old new b.
Proof.
  induction a as [|c a IH]; simpl; [reflexivity|].
  rewrite IH. destruct (Ascii.eqb c old); [|reflexivity].
  now rewrite append_assoc.
Qed.

Lemma double_quotes_length (x : string) :
  String.length x <= String.length (double_quotes x).
Proof.
  unfold double_quotes.
  induction x as [|c x IH]; simpl; [lia|].
  destruct (Ascii.eqb c "'"); simpl; lia.
Qed.

(** Every single quote of an escaped value is doubled. *)
Lemma double_quotes_paired (x : string) :
  quotes_paired (double_quotes x) = true.
Proof.
  unfold double_quotes.
  induction x as [|c x IH]; simpl; [reflexivity|].
  destruct (Ascii.eqb c "'") eqn:E; simpl.
  - exact IH.
  - now rewrite E.
Qed.

(** Escaping changes any text that holds a single quote. *)
Lemma double_quotes_changes (x : string) :
  contains "'" x = true -> double_quotes x <> x.
Proof.
  intros H. apply contains_split in H as (pre & post & ->).
  intros E. apply (f_equal String.length) in E.
  unfold double_quotes in E.
  rewrite !replace_char_append, !length_append in E.
  pose proof (double_quotes_length pre) as Hpre.
  pose proof (double_quotes_length post) as Hpost.
  unfold double_quotes in Hpre, Hpost. simpl in E. lia.
Qed.

Lemma generate_keeps (mapping : dict address_info) :
  forall acc x,
  In x acc ->
  In x (fold_left
          (fun sql_statements item =>
             let '(location, address_info) := item in
             (sql_statements
                ++ [origin_update location address_info]
                ++ [destination_update location address_info])%list)
          mapping acc).
Proof.
  induction mapping as [|[k v] mapping IH]; intros acc x H; simpl; [exact H|].
  apply IH. apply in_or_app. now left.
Qed.

Lemma generate_has (mapping : dict address_info) :
  forall acc location info,
  In (location, info) mapping ->
  let out :=
    fold_left
      (fun sql_statements item =>
         let '(location, address_info) := item in
         (sql_statements
            ++ [origin_update location address_info]
            ++ [destination_update location address_info])%list)
      mapping acc in
  In (origin_update location info) out
  /\ In (destination_update location info) out.
Proof.
  induction mapping as [|[k v] mapping IH]; intros acc location info H;
    simpl in *; [contradiction|].
  destruct H as [H|H].
  - injection H as -> ->.
    split; apply generate_keeps; apply in_or_app; right; simpl; auto.
  - now apply IH.
Qed.

(** Stepping through a chain of appended pieces. *)
Lemma prefix_here (b post : string) : String.prefix b (b ++ post) = true.
Proof. apply prefix_split. now exists post. Qed.

Lemma prefix_step (a b s : string) :
  String.prefix b s = true -> String.prefix (a ++ b) (a ++ s) = true.
Proof.
  intros H. apply prefix_split in H as [post ->].
  apply prefix_split. exists post. now rewrite append_assoc.
Qed.

Lemma contains_here (sub s : string) :
  String.prefix sub s = true -> contains sub s = true.
Proof. intros H. rewrite contains_unfold, H. reflexivity. Qed.

Lemma contains_skip (sub a s : string) :
  contains sub s = true -> contains sub (a ++ s) = true.
Proof.
  intros H. apply contains_split in H as (pre & post & ->).
  apply contains_split. exists (a ++ pre), post. now rewrite append_assoc.
Qed.

Lemma ends_with_here (s : string) : ends_with s s.
Proof. now exists "". Qed.

Lemma ends_with_skip (suffix a s : string) :
  ends_with suffix s -> ends_with suffix (a ++ s).
Proof. intros [pre ->]. exists (a ++ pre). now rewrite append_assoc. Qed.

Ltac find_piece :=
  repeat first
    [ apply contains_here;
      solve [repeat first [apply prefix_here | apply prefix_step]]
    | apply contains_skip ].

Ltac find_end :=
  repeat first [apply ends_with_here | apply ends_with_skip].

Example ohare_mapping :
  process_locations ohare_df = [("O'HARE", ohare_info)].
Proof. reflexivity. Qed.

(** C10. In the generated SQL the four address values of each SET
    clause have every single quote doubled, but the location key of the
    WHERE clause is embedded as it is.  For every entry of the mapping
    the output holds two statements that set the four columns to the
    escaped values and end with a WHERE clause around the key verbatim;
    escaping would change any key that holds a single quote; and for the
    location name "O'Hare" the statement ends with the key ['O'HARE'],
    its quote unescaped. *)
Theorem where_key_not_escaped :
  (forall x, quotes_paired (double_quotes x) = true)
  /\ (forall mapping location info,
        In (location, info) mapping ->
        exists origin_sql destination_sql,
          In origin_sql (generate_sql_updates mapping)
          /\ In destination_sql (generate_sql_updates mapping)
          /\ contains (dq ++ "originAddress" ++ dq ++ " = '"
                         ++ double_quotes (address info) ++ "',") origin_sql
             = true
          /\ contains (dq ++ "originCity" ++ dq ++ " = '"
                         ++ double_quotes (city info) ++ "',") origin_sql
             = true
          /\ contains (dq ++ "originState" ++ dq ++ " = '"
                         ++ double_quotes (state info) ++ "',") origin_sql
             = true
          /\ contains (dq ++ "originZipCode" ++ dq ++ " = '"
                         ++ double_quotes (zipcode info) ++ "'" ++ nl) origin_sql
             = true
          /\ ends_with ("WHERE UPPER(origin) = '" ++ location ++ "';" ++ nl)
                       origin_sql
          /\ contains (dq ++ "destinationAddress" ++ dq ++ " = '"
                         ++ double_quotes (address info) ++ "',") destination_sql
             = true
          /\ contains (dq ++ "destinationCity" ++ dq ++ " = '"
                         ++ double_quotes (city info) ++ "',") destination_sql
             = true
          /\ contains (dq ++ "destinationState" ++ dq ++ " = '"
                         ++ double_quotes (state info) ++ "',") destination_sql
             = true
          /\ contains (dq ++ "destinationZipCode" ++ dq ++ " = '"
                         ++ double_quotes (zipcode info) ++ "'" ++ nl)
                      destination_sql
             = true
          /\ ends_with ("WHERE UPPER(destination) = '" ++ location ++ "';" ++ nl)
                       destination_sql)
  /\ (forall location,
        contains "'" location = true -> double_quotes location <> location)
  /\ clean_location_name (CStr "O'Hare") = "O'HARE"
  /\ quotes_paired (clean_location_name (CStr "O'Hare")) = false
  /\ (exists origin_sql,
        In origin_sql (generate_sql_updates (process_locations ohare_df))
        /\ contains "'10000 W O''Hare Ave'" origin_sql = true
        /\ ends_with ("WHERE UPPER(origin) = 'O'HARE';" ++ nl) origin_sql).
Proof.
  split; [exact double_quotes_paired|].
  split; [|split; [exact double_quotes_changes|]].
  - intros mapping location info Hin.
    destruct (generate_has mapping
                ["-- SQL statements to update route locations with address information";
                 "-- Generated from Location addresses.xlsx";
                 ""] location info Hin) as [Ho Hd].
    exists (origin_update location info), (destination_update location info).
    split; [exact Ho|]. split; [exact Hd|].
    unfold origin_update, destination_update.
    repeat match goal with |- _ /\ _ => split end;
      first [solve [find_piece] | solve [find_end]].
  - split; [reflexivity|split; [reflexivity|]].
    exists (origin_update "O'HARE" ohare_info).
    split; [|split].
    + right; right; right; left. reflexivity.
    + reflexivity.
    + unfold origin_update. find_end.
Qed.

Lemma where_key_not_escaped_witness :
  double_quotes "O'HARE" <> "O'HARE"
  /\ exists origin_sql,
       In origin_sql (generate_sql_updates [("O'HARE", ohare_info)])
       /\ ends_with ("WHERE UPPER(origin) = '" ++ "O'HARE" ++ "';" ++ nl)
                    origin_sql.
Proof.
  destruct where_key_not_escaped as (_ & Hgen & Hchg & _).
  split.
  - apply Hchg. reflexivity.
  - destruct (Hgen [("O'HARE", ohare_info)] "O'HARE" ohare_info)
      as (o & d & Ho & _ & _ & _ & _ & _ & He & _).
    + left. reflexivity.
    + exists o. split; assumption.
Defined.

End LocationUpdates.

(* ================================================================== *)
(** * Laws of the text primitives *)
(* ================================================================== *)

Module TextLaws.
Import Py Spec TextFacts.

Ltac each_char c :=
  destruct c as [[] [] [] [] [] [] [] []]; vm_compute; reflexivity.

Lemma upper_char_idem (c : ascii) : upper_char (upper_char c) = upper_char c.
Proof. each_char c. Qed.

Lemma upper_char_space (c : ascii) : is_space (upper_char c) = is_space c.
Proof. each_char c. Qed.

Lemma upper_lower_char (c : ascii) :
  upper_char (Locations.lower_char c) = upper_char c.
Proof. each_char c. Qed.

Lemma lower_char_space (c : ascii) :
  is_space (Locations.lower_char c) = is_space c.
Proof. each_char c. Qed.

Lemma upper_idem (s : string) : upper (upper s) = upper s.
Proof.
  induction s as [|c s IH]; simpl; [reflexivity|].
  now rewrite upper_char_idem, IH.
Qed.

Lemma upper_lower (s : string) : upper (Locations.lower s) = upper s.
Proof.
  induction s as [|c s IH]; simpl; [reflexivity|].
  now rewrite upper_lower_char, IH.
Qed.

(** Stripping commutes with a character map that keeps whitespace
    whitespace and the rest non-whitespace. *)
Section Mapped.
Variable f : ascii -> ascii.
Variable map_f : string -> string.
Hypothesis map_nil : map_f EmptyString = EmptyString.
Hypothesis map_cons : forall c s, map_f (String c s) = String (f c) (map_f s).
Hypothesis f_space : forall c, is_space (f c) = is_space c.

Lemma lstrip_mapped (s : string) :
  lstrip_by is_space (map_f s) = map_f (lstrip_by is_space s).
Proof.
  induction s as [|c s IH].
  - now rewrite map_nil.
  - rewrite map_cons. simpl. rewrite f_space.
    destruct (is_space c); [exact IH | now rewrite map_cons].
Qed.

Lemma rstrip_mapped (s : string) :
  rstrip_by is_space (map_f s) = map_f (rstrip_by is_space s).
Proof.
  induction s as [|c s IH].
  - now rewrite map_nil.
  - rewrite map_cons. simpl. rewrite IH, f_space.
    destruct (rstrip_by is_space s) as [|d t].
    + rewrite map_nil.
      destruct (is_space c); [now rewrite map_nil | now rewrite map_cons, map_nil].
    + rewrite (map_cons d t), (map_cons c (String d t)), (map_cons d t).
      reflexivity.
Qed.

Lemma strip_mapped (s : string) : strip (map_f s) = map_f (strip s).
Proof. unfold strip. now rewrite lstrip_mapped, rstrip_mapped. Qed.

End Mapped.

Lemma strip_upper (s : string) : strip (upper s) = upper (strip s).
Proof.
  apply (strip_mapped upper_char upper); auto using upper_char_space.
Qed.

Lemma strip_lower (s : string) :
  strip (Locations.lower s) = Locations.lower (strip s).
Proof.
  apply (strip_mapped Locations.lower_char Locations.lower);
    auto using lower_char_space.
Qed.

(** ** Stripping twice *)

Lemma lstrip_head (p : ascii -> bool) (s : string) :
  head_outside p (lstrip_by p s).
Proof.
  induction s as [|c s IH]; simpl; [exact I|].
  destruct (p c) eqn:E; [exact IH | exact E].
Qed.

Lemma lstrip_fixed (p : ascii -> bool) (s : string) :
  head_outside p s -> lstrip_by p s = s.
Proof. destruct s as [|c s]; simpl; [reflexivity|]. now intros ->. Qed.

Lemma rstrip_head (p : ascii -> bool) (s : string) :
  head_outside p s -> head_outside p (rstrip_by p s).
Proof.
  destruct s as [|c s]; simpl; [auto|].
  intros H. rewrite H. now destruct (rstrip_by p s).
Qed.

Lemma rstrip_idem (p : ascii -> bool) (s : string) :
  rstrip_by p (rstrip_by p s) = rstrip_by p s.
Proof.
  induction s as [|c s IH]; simpl; [reflexivity|].
  destruct (rstrip_by p s) as [|d t] eqn:E.
  - destruct (p c) eqn:Ec; simpl; [reflexivity | now rewrite Ec].
  - change (rstrip_by p (String c (String d t))) with
      (match rstrip_by p (String d t) with
       | EmptyString => if p c then EmptyString else String c EmptyString
       | u => String c u
       end).
    now rewrite IH.
Qed.

Lemma strip_idem (s : string) : strip (strip s) = strip s.
Proof.
  unfold strip.
  rewrite (lstrip_fixed is_space (rstrip_by is_space (lstrip_by is_space s))).
  - apply rstrip_idem.
  - apply rstrip_head, lstrip_head.
Qed.

(** A text without whitespace is its own strip. *)
Lemma rstrip_no_space (s : string) :
  no_space s = true -> rstrip_by is_space s = s.
Proof.
  induction s as [|c s IH]; simpl; [reflexivity|].
  intros H. apply andb_prop in H as [Hc Hs].
  rewrite (IH Hs). apply negb_true_iff in Hc. rewrite Hc.
  now destruct s.
Qed.

Lemma strip_no_space (s : string) : no_space s = true -> strip s = s.
Proof.
  intros H. unfold strip. rewrite lstrip_fixed.
  - now apply rstrip_no_space.
  - destruct s as [|c s]; simpl in *; [exact I|].
    apply andb_prop in H as [Hc _]. now apply negb_true_iff in Hc.
Qed.

Lemma str_int_uint_no_space (d : Decimal.uint) :
  no_space (NilEmpty.string_of_uint d) = true.
Proof. induction d; simpl; auto. Qed.

Lemma str_int_no_space (z : Z) : no_space (str_int z) = true.
Proof.
  unfold str_int, NilZero.string_of_int, NilZero.string_of_uint.
  destruct (Z.to_int z) as [d|d]; destruct d;
    try reflexivity; apply str_int_uint_no_space.
Qed.

Lemma str_int_not_empty (z : Z) : str_int z <> "".
Proof.
  unfold str_int, NilZero.string_of_int, NilZero.string_of_uint.
  destruct (Z.to_int z) as [d|d]; destruct d; discriminate.
Qed.

Lemma contains_length (sub s : string) :
  contains sub s = true -> String.length sub <= String.length s.
Proof.
  intros H. apply contains_split in H as (pre & post & ->).
  rewrite !LocationUpdates.length_append. lia.
Qed.

End TextLaws.

(* ================================================================== *)
(** * Further laws of the carrier import *)
(* ================================================================== *)

Module CarrierLaws.
Import Py Spec TextFacts TextLaws Carriers CarrierRun.

(** ** The field normalisers *)

Lemma clean_string_text (s : string) :
  s <> "" -> strip s = s -> clean_string (CStr s) = Some s.
Proof.
  intros Hne Hs. unfold clean_string, truthy_str. simpl. rewrite Hs.
  apply String.eqb_neq in Hne. now rewrite Hne.
Qed.

(** X5. What [clean_string] returns is canonical: it is never empty, it
    has no whitespace at either end, and cleaning it again gives it back.
    [clean_string] returns [None] exactly for a null cell and for a text
    that is empty once stripped. *)
Theorem clean_string_canonical :
  (forall c s,
     clean_string c = Some s ->
     s <> "" /\ strip s = s /\ clean_string (CStr s) = Some s)
  /\ (forall c,
        clean_string c = None <-> isna c = true \/ strip (str c) = "").
Proof.
  split.
  - intros c s H. apply clean_string_some in H as (_ & -> & Hne).
    split; [exact Hne|]. split; [apply strip_idem|].
    apply clean_string_text; [exact Hne | apply strip_idem].
  - intros c. unfold clean_string, truthy_str.
    destruct (isna c); [split; auto|].
    destruct (String.eqb (strip (str c)) "") eqn:E; simpl.
    + apply String.eqb_eq in E. split; auto.
    + apply String.eqb_neq in E. split; [discriminate|].
      intros [H|H]; [discriminate | contradiction].
Qed.

Lemma clean_string_canonical_witness :
  clean_string (CStr "Acme Freight") = Some "Acme Freight"
  /\ strip "Acme Freight" = "Acme Freight".
Proof.
  destruct clean_string_canonical as [H _].
  destruct (H (CStr "  Acme Freight  ") "Acme Freight") as (_ & Hs & Hc).
  - reflexivity.
  - split; assumption.
Defined.

Lemma re_sub_nondigit_all_digits (s : string) :
  all_digits (re_sub_nondigit s) = true.
Proof.
  induction s as [|c s IH]; simpl; [reflexivity|].
  destruct (is_digit c) eqn:E; [simpl; now rewrite E | exact IH].
Qed.

(** The digits of a formatted ten-digit number are the ten digits. *)
Lemma format_digits (r p : string) :
  String.length r = 10 -> all_digits r = true ->
  Some ("(" ++ slice 0 3 r ++ ") " ++ slice 3 6 r ++ "-" ++ slice 6 10 r)
  = Some p ->
  re_sub_nondigit p = r /\ String.length p = 14.
Proof.
  intros Hlen Hd Hp. injection Hp as <-.
  destruct r as [|c0 [|c1 [|c2 [|c3 [|c4 [|c5 [|c6 [|c7 [|c8 [|c9 [|c r]]]]]]]]]]];
    try discriminate.
  cbn [all_digits] in Hd.
  repeat match type of Hd with
         | (_ && _) = true => apply andb_prop in Hd as [? Hd]
         end.
  split; [|reflexivity].
  cbn -[is_digit].
  repeat match goal with
         | H : is_digit ?c = true |- _ => rewrite H; clear H
         end.
  reflexivity.
Qed.

Lemma length_14_not_empty (p : string) : String.length p = 14 -> p <> "".
Proof. now destruct p. Qed.

(** X6. [clean_phone] is idempotent: what it returns for a cell is never
    empty, and cleaning that text again gives it back.  The digits of
    the result are the digits of the cell, less at most a leading [1]. *)
Theorem clean_phone_idempotent (c : cell) (p : string) :
  clean_phone c = Some p ->
  p <> ""
  /\ clean_phone (CStr p) = Some p
  /\ (re_sub_nondigit (str c) = re_sub_nondigit p
      \/ re_sub_nondigit (str c) = String "1" (re_sub_nondigit p)).
Proof.
  intros H.
  assert (Hna : isna c = false).
  { unfold clean_phone in H. destruct (isna c); [discriminate | reflexivity]. }
  rewrite (CarrierFields.clean_phone_residue c Hna) in H.
  pose proof (re_sub_nondigit_all_digits (str c)) as Hd.
  revert H Hd. generalize (re_sub_nondigit (str c)) as r. intros r H Hd.
  destruct (String.length r =? 10) eqn:H10.
  - apply Nat.eqb_eq in H10.
    destruct (format_digits r p H10 Hd H) as [Hres Hlen].
    split; [now apply length_14_not_empty|].
    split; [|left; now rewrite Hres].
    rewrite CarrierFields.clean_phone_residue by reflexivity.
    simpl str. rewrite Hres. apply Nat.eqb_eq in H10. now rewrite H10.
  - destruct ((String.length r =? 11) && startswith "1" r) eqn:H11.
    + apply andb_prop in H11 as [H11 H1]. apply Nat.eqb_eq in H11.
      destruct r as [|a r']; [discriminate|].
      injection H11 as H11. simpl in Hd. apply andb_prop in Hd as [_ Hd].
      assert (Ha : a = "1"%char).
      { unfold startswith in H1. apply prefix_split in H1 as [post H1].
        now injection H1. }
      subst a.
      change (slice 1 4 (String "1" r')) with (slice 0 3 r') in H.
      change (slice 4 7 (String "1" r')) with (slice 3 6 r') in H.
      change (slice 7 11 (String "1" r')) with (slice 6 10 r') in H.
      destruct (format_digits r' p H11 Hd H) as [Hres Hlen].
      split; [now apply length_14_not_empty|].
      split; [|right; now rewrite Hres].
      rewrite CarrierFields.clean_phone_residue by reflexivity.
      simpl str. rewrite Hres. apply Nat.eqb_eq in H11. now rewrite H11.
    + destruct (String.eqb r "") eqn:He; [discriminate|].
      injection H as <-. apply String.eqb_neq in He.
      split; [exact He|].
      rewrite (re_sub_nondigit_digits r Hd).
      split; [|now left].
      rewrite CarrierFields.clean_phone_residue by reflexivity.
      simpl str. rewrite (re_sub_nondigit_digits r Hd), H10, H11.
      apply String.eqb_neq in He. now rewrite He.
Qed.

Lemma clean_phone_idempotent_witness :
  clean_phone (CStr "(555) 123-4567") = Some "(555) 123-4567".
Proof.
  destruct (clean_phone_idempotent (CStr "+1 555.123.4567") "(555) 123-4567")
    as (_ & H & _).
  - reflexivity.
  - exact H.
Defined.

(** X8. [map_status] looks at neither the case of the text nor the
    whitespace around it. *)
Theorem map_status_ignores_case_and_margin (s : string) :
  map_status (CStr (upper s)) = map_status (CStr s)
  /\ map_status (CStr (Locations.lower s)) = map_status (CStr s)
  /\ map_status (CStr (strip s)) = map_status (CStr s).
Proof.
  unfold map_status. simpl.
  rewrite strip_upper, upper_idem, strip_lower, upper_lower, strip_idem.
  auto.
Qed.

(** ** The key of a row *)

Lemma to_int_not_nil (z : Z) :
  Z.to_int z <> Decimal.Pos Decimal.Nil /\ Z.to_int z <> Decimal.Neg Decimal.Nil.
Proof.
  destruct z as [|q|q]; simpl; split; try discriminate;
    intros H; injection H as H; now apply DecimalPos.Unsigned.to_uint_nonnil in H.
Qed.

Lemma str_int_injective (z1 z2 : Z) : str_int z1 = str_int z2 -> z1 = z2.
Proof.
  unfold str_int. intros H.
  apply (f_equal NilZero.int_of_string) in H.
  destruct (to_int_not_nil z1) as [Hp1 Hn1].
  destruct (to_int_not_nil z2) as [Hp2 Hn2].
  rewrite !NilZero.isi in H by assumption.
  injection H as H. now apply DecimalZ.to_int_inj.
Qed.

Lemma number_field_int (x : cell) (z : Z) :
  isna x = false -> int x = inl z -> number_field x = Ok (Some (str_int z)).
Proof.
  intros Hna Hz. unfold number_field, notna. rewrite Hna, Hz. simpl.
  rewrite clean_string_text; [reflexivity | apply str_int_not_empty|].
  apply strip_no_space, str_int_no_space.
Qed.

(** X4. The MC Number and DOT Number of a row are keyed by the integer
    value of the cell, not by its text: a cell that [int] converts to [z]
    gives the decimal text of [z], so two cells give the same number
    exactly when they convert to the same integer. *)
Theorem number_is_integer_text (x y : cell) (zx zy : Z) :
  isna x = false -> int x = inl zx ->
  isna y = false -> int y = inl zy ->
  number_field x = Ok (Some (str_int zx))
  /\ (number_field x = number_field y <-> zx = zy).
Proof.
  intros Hx Hzx Hy Hzy.
  rewrite (number_field_int x zx Hx Hzx), (number_field_int y zy Hy Hzy).
  split; [reflexivity|]. split.
  - intros H. injection H as H. now apply str_int_injective.
  - now intros ->.
Qed.

Lemma number_is_integer_text_witness :
  number_field (CStr " 1_00 ") = Ok (Some "100")
  /\ (number_field (CStr " 1_00 ")
      = number_field
          (CFloat {| float_int := 100; float_str := "100.0"; float_bool := true |})
      <-> 100%Z = 100%Z).
Proof.
  apply (number_is_integer_text
           (CStr " 1_00 ")
           (CFloat {| float_int := 100; float_str := "100.0"; float_bool := true |})
           100 100); reflexivity.
Defined.

(** ** The table *)

Lemma same_key_eq (k : string) (r : carrier_record) :
  same_key k r = true <-> mcNumber r = Some k.
Proof.
  unfold same_key. destruct (mcNumber r) as [k'|].
  - rewrite String.eqb_eq. split; [now intros -> | now intros [= ->]].
  - split; discriminate.
Qed.

Lemma has_key_keys (k : string) (t : table) :
  has_key k t = true <-> In k (keys t).
Proof.
  unfold has_key, keys. rewrite existsb_exists, in_flat_map.
  split; intros (r & Hin & H); exists r; (split; [exact Hin|]).
  - apply same_key_eq in H. rewrite H. now left.
  - apply same_key_eq. destruct (mcNumber r) as [k'|]; simpl in H.
    + destruct H as [->|[]]. reflexivity.
    + contradiction.
Qed.

Lemma conflicts_key (t : table) (r : carrier_record) (k : string) :
  mcNumber r = Some k -> conflicts t r = has_key k t.
Proof. intros H. unfold conflicts. now rewrite H. Qed.

Lemma keys_app (t u : table) : keys (t ++ u)%list = (keys t ++ keys u)%list.
Proof. apply flat_map_app. Qed.

Lemma execute_insert_unique (t : table) (r : carrier_record) :
  NoDup (keys t) -> NoDup (keys (execute_insert t r)).
Proof.
  intros H. unfold execute_insert.
  destruct (conflicts t r) eqn:E; [exact H|].
  rewrite keys_app. apply NoDup_app; [exact H| |].
  - unfold keys. simpl. destruct (mcNumber r); repeat constructor; auto.
  - intros k Hin Hr. unfold keys in Hr. simpl in Hr.
    destruct (mcNumber r) as [k'|] eqn:Ek; simpl in Hr; [|contradiction].
    destruct Hr as [->|[]].
    rewrite (conflicts_key t r k Ek) in E.
    apply has_key_keys in Hin. congruence.
Qed.

Lemma insert_all_unique (rs : list carrier_record) :
  forall t, NoDup (keys t) -> NoDup (keys (insert_all t rs)).
Proof.
  induction rs as [|r rs IH]; intros t H; simpl; [exact H|].
  apply IH. now apply execute_insert_unique.
Qed.

(** X3. The carrier import keeps the [mcNumber]s of the table distinct:
    when no two rows of the table share an [mcNumber] before the run, no
    two rows share one after it, whatever the spreadsheet holds. *)
Theorem mc_numbers_stay_distinct (db : table) (df : list carrier_row) :
  NoDup (keys db) -> NoDup (keys (carriers (main db df))).
Proof.
  intros H. destruct (carrier_main_state db df) as (-> & _).
  now apply insert_all_unique.
Qed.

Lemma mc_numbers_stay_distinct_witness :
  NoDup (keys (carriers (main [acme_record] [acme; dot_only; acme; dot_only]))).
Proof.
  apply (mc_numbers_stay_distinct [acme_record] [acme; dot_only; acme; dot_only]).
  repeat constructor. simpl. tauto.
Defined.

Lemma insert_all_appends (rs : list carrier_record) :
  forall t,
  exists added,
    insert_all t rs = (t ++ added)%list
    /\ (forall r, In r added -> In r rs)
    /\ (forall r k, In r added -> mcNumber r = Some k -> has_key k t = false)
    /\ length added <= length rs.
Proof.
  induction rs as [|r rs IH]; intros t; simpl.
  - exists []. rewrite app_nil_r.
    split; [reflexivity|]. split; [intros r []|]. split; [intros r k []|].
    simpl; lia.
  - unfold execute_insert. destruct (conflicts t r) eqn:E.
    + destruct (IH t) as (added & Ht & Hin & Hkey & Hlen).
      exists added.
      split; [exact Ht|]. split; [intros r' Hr; right; auto|].
      split; [exact Hkey | lia].
    + destruct (IH (t ++ [r])%list) as (added & Ht & Hin & Hkey & Hlen).
      exists (r :: added). rewrite Ht, <- app_assoc.
      split; [reflexivity|]. split; [|split].
      * intros r' [->|H]; auto.
      * intros r' k [->|H] Hk.
        -- now rewrite <- (conflicts_key t r' k Hk).
        -- specialize (Hkey r' k H Hk). rewrite has_key_app in Hkey.
           now apply orb_false_iff in Hkey.
      * simpl. lia.
Qed.

(** X2. The carrier import only appends: every row of the table before
    the run is still there after it, unchanged and in place.  The rows
    appended are records of the spreadsheet, none of them carries an
    [mcNumber] the table already held, and there are at most
    [successful_inserts] of them. *)
Theorem import_only_appends (db : table) (df : list carrier_row) :
  exists added,
    carriers (main db df) = (db ++ added)%list
    /\ (forall r, In r added -> exists row, In row df /\ prepare row = Ok r)
    /\ (forall r k, In r added -> mcNumber r = Some k -> has_key k db = false)
    /\ length added <= successful_inserts (main db df).
Proof.
  destruct (carrier_main_state db df) as (Ht & Hs & _).
  destruct (insert_all_appends (carrier_records df) db)
    as (added & Ha & Hin & Hkey & Hlen).
  exists added. rewrite Ht, Hs. split; [exact Ha|]. split; [|split].
  - intros r Hr. apply CarrierImport.in_carrier_records. auto.
  - exact Hkey.
  - now rewrite <- carrier_records_length.
Qed.



(** ** The counters and the flags *)

Lemma passed_over_step (st : run) (row : carrier_row) :
  passed_over row = true -> step st row = st.
Proof.
  unfold passed_over, step. now destruct (prepare row).
Qed.

Lemma carrier_rows_partition (df : list carrier_row) :
  length df
  = length (filter attempted df) + length (filter raises df)
    + length (filter passed_over df).
Proof.
  induction df as [|row df IH]; simpl; [reflexivity|].
  unfold attempted at 1, raises at 1, passed_over at 1.
  destruct (prepare row); simpl; lia.
Qed.

Lemma number_field_not_continue (x : cell) : number_field x <> Continue.
Proof.
  destruct (number_field_cases x)
    as [[_ H]|[(_ & z & _ & H)|(_ & e & _ & H)]]; rewrite H; discriminate.
Qed.

(** A number that is there is never the empty text. *)
Lemma number_field_truthy (x : cell) (o : option string) :
  number_field x = Ok o -> truthy o = false <-> o = None.
Proof.
  intros H.
  destruct (number_field_cases x)
    as [[_ Hx]|[(Hna & z & Hz & _)|(_ & e & _ & Hx)]].
  - rewrite Hx in H. injection H as <-. split; reflexivity.
  - rewrite (number_field_int x z Hna Hz) in H. injection H as <-.
    simpl. unfold truthy_str.
    pose proof (str_int_not_empty z) as Hne.
    apply String.eqb_neq in Hne. rewrite Hne. split; discriminate.
  - rewrite Hx in H. discriminate.
Qed.

(** X9. Every row of the carrier spreadsheet ends in exactly one of three
    ways: it reaches the insert and is counted in [successful_inserts],
    it raises and is counted in [failed_inserts], or it is passed over
    (no name, or neither number) and leaves the run as it was.  So the
    two counters and the rows passed over add up to the row count. *)
Theorem carrier_rows_accounted_for (db : table) (df : list carrier_row) :
  length df
  = successful_inserts (main db df) + failed_inserts (main db df)
    + length (filter passed_over df)
  /\ (forall st row, passed_over row = true -> step st row = st)
  /\ (forall row,
        passed_over row = true
        <-> truthy (clean_string (Carrier_Name row)) = false
            \/ (number_field (MC_Number row) = Ok None
                /\ number_field (DOT_Number row) = Ok None)).
Proof.
  destruct (carrier_main_state db df) as (_ & Hs & Hf).
  rewrite Hs, Hf. split; [apply carrier_rows_partition|].
  split; [exact passed_over_step|].
  intros row. unfold passed_over, prepare.
  destruct (clean_string (Carrier_Name row)) as [n|] eqn:En; simpl.
  2:{ split; auto. }
  destruct (truthy_str n) eqn:Et; simpl.
  2:{ split; auto. }
  pose proof (number_field_not_continue (MC_Number row)) as Hmc0.
  pose proof (number_field_not_continue (DOT_Number row)) as Hdot0.
  pose proof (number_field_truthy (MC_Number row)) as Hmc.
  pose proof (number_field_truthy (DOT_Number row)) as Hdot.
  destruct (number_field (MC_Number row)) as [mc| |e]; simpl.
  - destruct (number_field (DOT_Number row)) as [dot| |e']; simpl.
    + specialize (Hmc mc eq_refl). specialize (Hdot dot eq_refl).
      destruct (truthy mc) eqn:Tm; simpl.
      * split; [discriminate|].
        intros [H|[H _]]; [discriminate|].
        injection H as ->. discriminate.
      * destruct (truthy dot) eqn:Td; simpl.
        -- split; [discriminate|].
           intros [H|[_ H]]; [discriminate|].
           injection H as ->. discriminate.
        -- split; [|intros _; reflexivity]. intros _. right.
           assert (mc = None) as -> by (apply Hmc; reflexivity).
           assert (dot = None) as -> by (apply Hdot; reflexivity).
           auto.
    + now elim Hdot0.
    + split; [discriminate|]. intros [H|[_ H]]; discriminate.
  - now elim Hmc0.
  - split; [discriminate|]. intros [H|[H _]]; discriminate.
Qed.

Lemma carrier_rows_accounted_for_witness :
  step (main [] [acme]) nameless = main [] [acme].
Proof.
  destruct (carrier_rows_accounted_for [] [acme]) as (_ & H & _).
  apply H. reflexivity.
Defined.

(** X7. In every row the carrier import adds, [onboardingComplete] is
    true exactly when [status] is ONBOARDED, [status] is one of the three
    enum values, and a NOT_ONBOARDED carrier is never marked complete. *)
Theorem onboarding_flag_follows_status
    (db : table) (df : list carrier_row) (r : carrier_record) :
  In r (carriers (main db df)) ->
  In r db
  \/ ((onboardingComplete r = true <-> status r = "ONBOARDED")
      /\ (status r = "PENDING" \/ status r = "ONBOARDED"
          \/ status r = "NOT_ONBOARDED")
      /\ (status r = "NOT_ONBOARDED" -> onboardingComplete r = false)).
Proof.
  intros Hin. destruct (carrier_main_state db df) as (Ht & _).
  rewrite Ht in Hin.
  apply CarrierImport.in_insert_all in Hin as [Hin|Hin]; [now left|right].
  apply CarrierImport.in_carrier_records in Hin as (row & _ & Hp).
  unfold prepare in Hp.
  destruct (clean_string (Carrier_Name row)) as [n|]; [|discriminate].
  destruct (negb (truthy_str n)); [discriminate|].
  destruct (number_field (MC_Number row)) as [mc| |e]; simpl in Hp;
    try discriminate.
  destruct (number_field (DOT_Number row)) as [dot| |e]; simpl in Hp;
    try discriminate.
  destruct (negb (truthy mc) && negb (truthy dot)); [discriminate|].
  injection Hp as <-. simpl.
  split; [apply String.eqb_eq|].
  split.
  - unfold map_status. destruct (isna (Status row)); auto.
    destruct (contains "NOT ONBOARDED" _); auto.
    destruct (contains "ONBOARDED" _); auto.
  - intros ->. reflexivity.
Qed.

Lemma onboarding_flag_follows_status_witness :
  In acme_record []
  \/ ((onboardingComplete acme_record = true <-> status acme_record = "ONBOARDED")
      /\ (status acme_record = "PENDING" \/ status acme_record = "ONBOARDED"
          \/ status acme_record = "NOT_ONBOARDED")
      /\ (status acme_record = "NOT_ONBOARDED"
          -> onboardingComplete acme_record = false)).
Proof.
  apply (onboarding_flag_follows_status [] [acme; nameless] acme_record).
  left. reflexivity.
Defined.

End CarrierLaws.

(* ================================================================== *)
(** * Further laws of the route import *)
(* ================================================================== *)

Module RouteLaws.
Import Py Spec TextFacts TextLaws Routes.

Lemma digit_not_colon (c : ascii) : is_digit c = true -> Ascii.eqb c ":" = false.
Proof.
  destruct c as [[] [] [] [] [] [] [] []]; vm_compute;
    first [reflexivity | discriminate].
Qed.

(** A token [HH:MM:SS] has three colon-delimited parts. *)
Lemma hms_token_parts (tok : string) :
  match_hms tok = Some tok ->
  String.length tok = 8
  /\ contains ":" tok = true
  /\ List.length (split ":" tok) = 3.
Proof.
  intros H.
  destruct (RouteFields.match_hms_some tok tok H) as (Hlen & _).
  split; [exact Hlen|].
  unfold match_hms in H.
  destruct tok as [|h1 [|h2 [|c1 [|m1 [|m2 [|c2 [|s1 [|s2 [|x r]]]]]]]]];
    try discriminate.
  destruct (is_digit h1 && is_digit h2 && Ascii.eqb c1 ":"
            && is_digit m1 && is_digit m2 && Ascii.eqb c2 ":"
            && is_digit s1 && is_digit s2) eqn:E; [|discriminate].
  repeat match type of E with
         | (_ && _) = true => apply andb_prop in E as [E ?]
         end.
  repeat match goal with
         | H : Ascii.eqb _ ":" = true |- _ => apply Ascii.eqb_eq in H; subst
         end.
  split.
  - apply contains_split.
    exists (String h1 (String h2 "")),
           (String m1 (String m2 (String ":" (String s1 (String s2 ""))))).
    reflexivity.
  - cbn [split].
    repeat match goal with
           | H : is_digit ?c = true |- _ =>
               rewrite (digit_not_colon c H); clear H
           end.
    reflexivity.
Qed.

(** X11. [clean_time_string] never drops a value: every cell that is not
    null gives some text, whatever the date parser does.  And a text that
    is already an [HH:MM:SS] token comes back unchanged. *)
Theorem clean_time_string_keeps_data (to_datetime : string -> option timestamp) :
  (forall c, isna c = false ->
     exists s, clean_time_string to_datetime c = Some s)
  /\ (forall tok, match_hms tok = Some tok ->
        clean_time_string to_datetime (CStr tok) = Some tok).
Proof.
  split.
  - intros c Hna. unfold clean_time_string, time_only, parse_or_keep.
    rewrite Hna.
    repeat match goal with
           | |- context [if ?b then _ else _] => destruct b
           | |- context [match ?o with Some _ => _ | None => _ end] =>
               destruct o
           end; eauto.
  - intros tok H. destruct (hms_token_parts tok H) as (Hlen & Hc & Hparts).
    unfold clean_time_string, time_only. simpl.
    destruct (contains "1900-01-01" tok) eqn:E.
    + apply contains_length in E. simpl in E. lia.
    + now rewrite Hc, Hparts.
Qed.

Lemma clean_time_string_keeps_data_witness :
  clean_time_string no_datetime (CStr "08:15:00") = Some "08:15:00".
Proof.
  destruct (clean_time_string_keeps_data no_datetime) as [_ H].
  apply H. reflexivity.
Defined.

Section WithParsers.
Variable to_datetime : string -> option timestamp.
Variable float_literal : string -> bool.



End WithParsers.



End RouteLaws.

(* ================================================================== *)
(** * Further laws of the address enrichment *)
(* ================================================================== *)

Module LocationLaws.
Import Py Spec TextFacts TextLaws Locations.

(** ** The location key *)

Lemma clean_location_name_idem (c : cell) :
  clean_location_name (CStr (clean_location_name c)) = clean_location_name c.
Proof.
  unfold clean_location_name. simpl isna. cbv iota.
  destruct (isna c); [reflexivity|]. simpl str.
  now rewrite strip_upper, strip_idem, upper_idem.
Qed.

(** X12. The location key is canonical: cleaning a key again gives the
    key, and the key of a name depends on neither its case nor the
    whitespace around it.  A null name has the empty key. *)
Theorem location_key_canonical :
  (forall c,
     clean_location_name (CStr (clean_location_name c)) = clean_location_name c)
  /\ (forall s,
        clean_location_name (CStr (upper s)) = clean_location_name (CStr s)
        /\ clean_location_name (CStr (lower s)) = clean_location_name (CStr s)
        /\ clean_location_name (CStr (strip s)) = clean_location_name (CStr s))
  /\ clean_location_name CNull = "".
Proof.
  split; [exact clean_location_name_idem|split; [|reflexivity]].
  intros s. unfold clean_location_name. simpl.
    now rewrite strip_upper, upper_idem, strip_lower, upper_lower, strip_idem.
Qed.

(** ** The mapping *)

Lemma dict_set_keys {V : Type} (d : dict V) (k : string) (v : V) :
  map fst (dict_set d k v)
  = if existsb (String.eqb k) (map fst d) then map fst d
    else (map fst d ++ [k])%list.
Proof.
  induction d as [|[k' v'] d IH]; simpl; [reflexivity|].
  destruct (String.eqb k k') eqn:E; simpl.
  - apply String.eqb_eq in E. now subst.
  - rewrite IH. now destruct (existsb (String.eqb k) (map fst d)).
Qed.

Lemma dict_set_NoDup {V : Type} (d : dict V) (k : string) (v : V) :
  NoDup (map fst d) -> NoDup (map fst (dict_set d k v)).
Proof.
  intros H. rewrite dict_set_keys.
  destruct (existsb (String.eqb k) (map fst d)) eqn:E; [exact H|].
  apply NoDup_app; [exact H | repeat constructor; auto|].
  intros a Ha [Hk|[]]. subst a.
  assert (existsb (String.eqb k) (map fst d) = true); [|congruence].
  apply existsb_exists. exists k. split; [exact Ha | apply String.eqb_refl].
Qed.

Lemma lookup_dict_set {V : Type} (d : dict V) (k k' : string) (v : V) :
  lookup k' (dict_set d k v)
  = if String.eqb k' k then Some v else lookup k' d.
Proof.
  induction d as [|[k0 v0] d IH]; simpl.
  - reflexivity.
  - destruct (String.eqb k k0) eqn:E; simpl.
    + apply String.eqb_eq in E. subst k0.
      now destruct (String.eqb k' k).
    + rewrite IH. destruct (String.eqb k' k0) eqn:E0; [|reflexivity].
      apply String.eqb_eq in E0. subst k0.
      rewrite String.eqb_sym in E. now rewrite E.
Qed.

Lemma lookup_keys {V : Type} (d : dict V) (k : string) :
  lookup k d <> None <-> In k (map fst d).
Proof.
  induction d as [|[k' v'] d IH]; simpl.
  - split; [congruence | contradiction].
  - destruct (String.eqb k k') eqn:E.
    + apply String.eqb_eq in E. split; [auto | discriminate].
    + apply String.eqb_neq in E. rewrite IH. split; [auto|].
      intros [H|H]; [congruence | exact H].
Qed.

(** Processing one more row sets the item that row yields. *)
Lemma process_locations_app (cols : list string) (rows : list (list cell))
    (row : list cell) :
  process_locations {| columns := cols; rows := (rows ++ [row])%list |}
  = match location_entry cols row with
    | Some (k, v) =>
        dict_set (process_locations {| columns := cols; rows := rows |}) k v
    | None => process_locations {| columns := cols; rows := rows |}
    end.
Proof.
  unfold location_entry, process_locations. cbn [columns Locations.rows].
  rewrite fold_left_app. cbn [fold_left].
  destruct (filter _ cols) as [|lc lcs]; [reflexivity|].
  destruct (truthy_str (clean_location_name (get cols row lc))); reflexivity.
Qed.

Lemma location_entry_key (cols : list string) (row : list cell)
    (k : string) (v : address_info) :
  location_entry cols row = Some (k, v) ->
  k <> "" /\ clean_location_name (CStr k) = k.
Proof.
  unfold location_entry, process_locations. cbn [columns Locations.rows fold_left].
  destruct (filter _ cols) as [|lc lcs]; [discriminate|].
  destruct (truthy_str (clean_location_name (get cols row lc))) eqn:E;
    [|discriminate].
  cbn [dict_set]. intros H. injection H as <- _.
  split.
  - unfold truthy_str in E. apply negb_true_iff, String.eqb_neq in E. exact E.
  - apply clean_location_name_idem.
Qed.

(** X13. The keys of the location mapping are pairwise distinct, none of
    them is empty and each is a canonical key. *)
Theorem mapping_keys_distinct (df : dataframe) :
  NoDup (map fst (process_locations df))
  /\ (forall k, In k (map fst (process_locations df)) ->
        k <> "" /\ clean_location_name (CStr k) = k).
Proof.
  destruct df as [cols rows].
  induction rows as [|row rows IH] using rev_ind.
  - split; [constructor | intros k []].
  - rewrite process_locations_app.
    destruct (location_entry cols row) as [[k v]|] eqn:E; [|exact IH].
    destruct IH as [Hnd Hkeys]. split.
    + now apply dict_set_NoDup.
    + intros k' Hin. rewrite dict_set_keys in Hin.
      destruct (existsb (String.eqb k) _); [now apply Hkeys|].
      apply in_app_or in Hin as [Hin|[<-|[]]]; [now apply Hkeys|].
      now apply (location_entry_key cols row k v).
Qed.

Lemma mapping_keys_distinct_witness :
  "O'HARE" <> "" /\ clean_location_name (CStr "O'HARE") = "O'HARE".
Proof.
  destruct (mapping_keys_distinct ohare_df) as [_ H].
  apply H. left. reflexivity.
Defined.

(** X14. The location mapping is last-writer-wins: the address under a
    key is the one of the last spreadsheet row with that key.  And a key
    is in the mapping exactly when some row yields it. *)
Theorem mapping_last_writer_wins
    (cols : list string) (rows1 rows2 : list (list cell)) (row : list cell)
    (k : string) (v : address_info) :
  location_entry cols row = Some (k, v) ->
  (forall row' v', In row' rows2 -> location_entry cols row' <> Some (k, v')) ->
  lookup k (process_locations
              {| columns := cols; rows := (rows1 ++ row :: rows2)%list |})
  = Some v.
Proof.
  intros He. induction rows2 as [|row' rows2 IH] using rev_ind; intros Hlast.
  - rewrite process_locations_app, He, lookup_dict_set.
    now rewrite String.eqb_refl.
  - replace (rows1 ++ row :: rows2 ++ [row'])%list
      with ((rows1 ++ row :: rows2) ++ [row'])%list
      by (now rewrite <- app_assoc).
    rewrite process_locations_app.
    assert (IH' : lookup k (process_locations
                    {| columns := cols; rows := (rows1 ++ row :: rows2)%list |})
                  = Some v).
    { apply IH. intros r v' Hin. apply Hlast. apply in_or_app. now left. }
    destruct (location_entry cols row') as [[k' v']|] eqn:E; [|exact IH'].
    rewrite lookup_dict_set.
    destruct (String.eqb k k') eqn:Ek; [|exact IH'].
    apply String.eqb_eq in Ek. subst k'.
    elim (Hlast row' v'); [apply in_or_app; right; now left | exact E].
Qed.

Lemma mapping_last_writer_wins_witness :
  lookup "O'HARE"
    (process_locations
       {| columns := columns ohare_df;
          rows := ([[CStr "o'hare"; CNull; CNull; CNull; CNull]]
                   ++ [CStr "O'Hare"; CStr "10000 W O'Hare Ave"; CStr "Chicago";
                       CStr "IL"; CInt 60666]
                   :: [[CStr "Midway"; CNull; CNull; CNull; CNull]])%list |})
  = Some ohare_info.
Proof.
  apply (mapping_last_writer_wins (columns ohare_df)).
  - reflexivity.
  - intros row' v' [<-|[]]. discriminate.
Defined.

Lemma filter_none {A : Type} (f : A -> bool) (l : list A) :
  (forall x, In x l -> f x = false) -> filter f l = [].
Proof.
  induction l as [|x l IH]; simpl; intros H; [reflexivity|].
  rewrite (H x) by auto. apply IH. auto.
Qed.

Lemma mapping_keys_rows (cols : list string) (rows : list (list cell))
    (k : string) :
  In k (map fst (process_locations {| columns := cols; rows := rows |}))
  <-> exists row v, In row rows /\ location_entry cols row = Some (k, v).
Proof.
  induction rows as [|row rows IH] using rev_ind.
  - split; [intros [] | intros (row & v & [] & _)].
  - rewrite process_locations_app.
    destruct (location_entry cols row) as [[k' v']|] eqn:E.
    + rewrite dict_set_keys.
      assert (Hk : In k (map fst (process_locations
                                    {| columns := cols; rows := rows |}) ++ [k'])
                   <-> exists row0 v,
                         In row0 (rows ++ [row]) /\ location_entry cols row0 = Some (k, v)).
      { rewrite in_app_iff, IH. split.
        - intros [(r & v & Hin & Hr)|[<-|[]]].
          + exists r, v. split; [apply in_or_app; now left | exact Hr].
          + exists row, v'. split; [apply in_or_app; right; now left | exact E].
        - intros (r & v & Hin & Hr).
          apply in_app_or in Hin as [Hin|[<-|[]]].
          + left. eauto.
          + right. left. congruence. }
      destruct (existsb (String.eqb k') _) eqn:Ex; [|exact Hk].
      rewrite <- Hk, in_app_iff. split; [auto|].
      intros [H|[<-|[]]]; [exact H|].
      apply existsb_exists in Ex as (x & Hx & Hxe).
      apply String.eqb_eq in Hxe. now subst x.
    + rewrite IH. split.
      * intros (r & v & Hin & Hr).
        exists r, v. split; [apply in_or_app; now left | exact Hr].
      * intros (r & v & Hin & Hr).
        apply in_app_or in Hin as [Hin|[<-|[]]]; [eauto | congruence].
Qed.

(** X15. A key is in the location mapping exactly when some row of the
    spreadsheet yields it.  When no column name mentions location, city
    or name, no row yields a key and the mapping is empty, whatever the
    rows hold. *)
Theorem mapping_covers_rows (cols : list string) (rows : list (list cell)) :
  (forall k,
     In k (map fst (process_locations {| columns := cols; rows := rows |}))
     <-> exists row v, In row rows /\ location_entry cols row = Some (k, v))
  /\ ((forall col, In col cols ->
         contains "location" (lower col) = false
         /\ contains "city" (lower col) = false
         /\ contains "name" (lower col) = false) ->
      process_locations {| columns := cols; rows := rows |} = []).
Proof.
  split; [intros k; apply mapping_keys_rows|].
  intros Hcols.
  assert (Hnone : forall row, location_entry cols row = None).
  { intros row. unfold location_entry, process_locations.
    cbn [columns Locations.rows fold_left].
    rewrite filter_none; [reflexivity|].
    intros col Hin. destruct (Hcols col Hin) as (-> & -> & ->). reflexivity. }
  induction rows as [|row rows IH] using rev_ind; [reflexivity|].
  now rewrite process_locations_app, Hnone.
Qed.

Lemma mapping_covers_rows_witness :
  process_locations
    {| columns := ["Terminal"; "Street"; "Zip"];
       rows := [[CStr "O'Hare"; CStr "10000 W O'Hare Ave"; CInt 60666]] |}
  = [].
Proof.
  destruct (mapping_covers_rows
              ["Terminal"; "Street"; "Zip"]
              [[CStr "O'Hare"; CStr "10000 W O'Hare Ave"; CInt 60666]])
    as [_ H].
  apply H. intros col [<-|[<-|[<-|[]]]]; repeat split; reflexivity.
Defined.

(** X16. A null cell is not treated alike in every column.  A null
    address cell gives the empty text, but the zip cell goes through
    [str] before the null test, so a null zip cell gives the text "nan".
    Without any zip column the zipcode is the empty text. *)
Theorem null_zip_is_nan
    (cols : list string) (row : list cell) (k : string) (v : address_info) :
  location_entry cols row = Some (k, v) ->
  (forall zc rest,
     filter (fun col => contains "zip" (lower col)
                        || contains "postal" (lower col)) cols = zc :: rest ->
     get cols row zc = CNull -> zipcode v = "nan")
  /\ (forall ac rest,
        filter (fun col => contains "address" (lower col)
                           || contains "street" (lower col)) cols = ac :: rest ->
        get cols row ac = CNull -> address v = "")
  /\ (filter (fun col => contains "zip" (lower col)
                         || contains "postal" (lower col)) cols = [] ->
      zipcode v = "").
Proof.
  unfold location_entry, process_locations.
  cbn [columns Locations.rows fold_left].
  destruct (filter _ cols) as [|lc lcs]; [discriminate|].
  destruct (truthy_str (clean_location_name (get cols row lc))); [|discriminate].
  cbn [dict_set]. intros H. injection H as _ <-.
  cbn [zipcode address].
  split; [|split].
  - intros zc rest -> Hz. rewrite Hz. reflexivity.
  - intros ac rest -> Ha. cbn [first_or_empty]. rewrite Ha. reflexivity.
  - intros ->. reflexivity.
Qed.

Lemma null_zip_is_nan_witness :
  zipcode {| address := ""; city := "Chicago"; state := "IL"; zipcode := "nan" |}
  = "nan"
  /\ address {| address := ""; city := "Chicago"; state := "IL"; zipcode := "nan" |}
     = "".
Proof.
  destruct (null_zip_is_nan
              (columns ohare_df)
              [CStr "O'Hare"; CNull; CStr "Chicago"; CStr "IL"; CNull]
              "O'HARE"
              {| address := ""; city := "Chicago"; state := "IL"; zipcode := "nan" |})
    as (Hzip & Haddr & _).
  - reflexivity.
  - split.
    + apply (Hzip "Zip" []); reflexivity.
    + apply (Haddr "Address" []); reflexivity.
Defined.

(** ** The generated statements *)

Lemma generate_from (m : dict address_info) :
  forall acc,
  fold_left
    (fun sql_statements item =>
       let '(location, address_info) := item in
       (sql_statements
          ++ [origin_update location address_info]
          ++ [destination_update location address_info])%list)
    m acc
  = (acc ++ flat_map
              (fun item =>
                 [origin_update (fst item) (snd item);
                  destination_update (fst item) (snd item)]) m)%list.
Proof.
  induction m as [|[k v] m IH]; intros acc; simpl.
  - now rewrite app_nil_r.
  - rewrite IH, <- app_assoc. reflexivity.
Qed.

(** X17. The generated script is the three header lines followed, for
    each item of the mapping in mapping order, by the origin statement
    and then the destination statement: three lines plus two statements
    per location, and the header alone for an empty mapping. *)
Theorem sql_updates_in_mapping_order (m : dict address_info) :
  generate_sql_updates m
  = (["-- SQL statements to update route locations with address information";
      "-- Generated from Location addresses.xlsx";
      ""]
     ++ flat_map
          (fun item =>
             [origin_update (fst item) (snd item);
              destination_update (fst item) (snd item)]) m)%list
  /\ length (generate_sql_updates m) = 3 + 2 * length m.
Proof.
  unfold generate_sql_updates. rewrite generate_from.
  split; [reflexivity|].
  rewrite length_app. simpl. f_equal. f_equal. f_equal.
  induction m as [|[k v] m IH]; simpl; [reflexivity|]. rewrite IH. lia.
Qed.

(** ** Quote doubling *)

Lemma contains_cons_false (sub : string) (c : ascii) (s : string) :
  contains sub (String c s) = false -> contains sub s = false.
Proof.
  rewrite contains_unfold. intros H. now apply orb_false_iff in H.
Qed.

Lemma quote_free_head (c : ascii) (s : string) :
  contains "'" (String c s) = false -> Ascii.eqb c "'" = false.
Proof.
  intros H. destruct (Ascii.eqb c "'") eqn:E; [|reflexivity].
  apply Ascii.eqb_eq in E. subst c.
  assert (contains "'" (String "'" s) = true); [|congruence].
  apply contains_split. now exists "", s.
Qed.

(** X18. Quote doubling loses nothing: reading every doubled quote of an
    escaped value as one quote gives the value back, so two values are
    escaped alike only when they are equal.  The escaped text is the
    value itself exactly when the value holds no single quote. *)
Theorem double_quotes_reversible :
  (forall x, collapse_quotes (double_quotes x) = x)
  /\ (forall x y, double_quotes x = double_quotes y -> x = y)
  /\ (forall x, double_quotes x = x <-> contains "'" x = false).
Proof.
  assert (Hback : forall x, collapse_quotes (double_quotes x) = x).
  { unfold double_quotes. induction x as [|c x IH]; [reflexivity|].
    cbn [replace_char]. destruct (Ascii.eqb c "'") eqn:E.
    - apply Ascii.eqb_eq in E. subst c. cbn. now rewrite IH.
    - cbn [collapse_quotes]. now rewrite E, IH. }
  split; [exact Hback|]. split.
  - intros x y H. apply (f_equal collapse_quotes) in H.
    now rewrite !Hback in H.
  - intros x. split.
    + intros H. destruct (contains "'" x) eqn:E; [|reflexivity].
      now elim (LocationUpdates.double_quotes_changes x E).
    + unfold double_quotes. induction x as [|c x IH]; [reflexivity|].
      intros H. cbn [replace_char].
      rewrite (quote_free_head c x H).
      now rewrite (IH (contains_cons_false _ c x H)).
Qed.

Lemma double_quotes_reversible_witness :
  "O'Hare Ave" = "O'Hare Ave" /\ double_quotes "Midway" = "Midway".
Proof.
  destruct double_quotes_reversible as (_ & Hinj & Hid).
  split.
  - apply Hinj. reflexivity.
  - apply Hid. reflexivity.
Defined.

(** ** The JSON dump *)

Lemma json_unescape_char (c : ascii) (rest : string) :
  json_unescape (json_escape_char c ++ rest) = String c (json_unescape rest).
Proof.
  destruct c as [[] [] [] [] [] [] [] []]; reflexivity.
Qed.

Lemma json_escape_char_printable (c : ascii) :
  every_char (fun x => 32 <=? code x) (json_escape_char c) = true.
Proof.
  destruct c as [[] [] [] [] [] [] [] []]; reflexivity.
Qed.

Lemma every_char_append (p : ascii -> bool) (a b : string) :
  every_char p (a ++ b) = every_char p a && every_char p b.
Proof.
  induction a as [|c a IH]; simpl; [reflexivity|].
  now rewrite IH, andb_assoc.
Qed.

(** X19. The JSON encoding of a text can be read back: undoing the
    escapes of an encoded text gives the text, so two texts are encoded
    alike only when they are equal.  The encoded text holds no control
    character, whatever the text. *)
Theorem json_escape_reversible :
  (forall s, json_unescape (json_escape s) = s)
  /\ (forall s t, json_escape s = json_escape t -> s = t)
  /\ (forall s, every_char (fun x => 32 <=? code x) (json_escape s) = true).
Proof.
  assert (Hback : forall s, json_unescape (json_escape s) = s).
  { induction s as [|c s IH]; [reflexivity|].
    cbn [json_escape]. now rewrite json_unescape_char, IH. }
  split; [exact Hback|]. split.
  - intros s t H. apply (f_equal json_unescape) in H. now rewrite !Hback in H.
  - induction s as [|c s IH]; [reflexivity|].
    cbn [json_escape].
    now rewrite every_char_append, json_escape_char_printable, IH.
Qed.

Lemma json_escape_reversible_witness :
  "10000 W O'Hare Ave" = "10000 W O'Hare Ave".
Proof.
  destruct json_escape_reversible as (_ & Hinj & _).
  apply Hinj. reflexivity.
Defined.

Lemma contains_left (sub a b : string) :
  contains sub a = true -> contains sub (a ++ b) = true.
Proof.
  intros H. apply contains_split in H as (pre & post & ->).
  apply contains_split. exists pre, (post ++ b).
  now rewrite !append_assoc.
Qed.

Lemma json_items_contain (m : dict address_info) (k : string) (v : address_info) :
  In (k, v) m ->
  contains ("  " ++ json_string k ++ ": " ++ json_address v) (json_items m) = true.
Proof.
  induction m as [|[k' v'] m IH]; [intros []|].
  intros [H|H].
  - injection H as -> ->. cbn [json_items].
    replace ("  " ++ json_string k ++ ": " ++ json_address v
             ++ match m with
                | [] => ""
                | _ :: _ => "," ++ nl ++ json_items m
                end)
      with (("  " ++ json_string k ++ ": " ++ json_address v)
            ++ match m with
               | [] => ""
               | _ :: _ => "," ++ nl ++ json_items m
               end)
      by (now rewrite !append_assoc).
    apply contains_left. apply LocationUpdates.contains_here.
    replace ("  " ++ json_string k ++ ": " ++ json_address v)
      with (("  " ++ json_string k ++ ": " ++ json_address v) ++ "")
      at 2 by apply append_empty_r.
    apply LocationUpdates.prefix_here.
  - cbn [json_items]. destruct m as [|item m]; [destruct H|].
    do 4 apply LocationUpdates.contains_skip.
    apply LocationUpdates.contains_skip. now apply IH.
Qed.

(** X20. The JSON dump of the mapping holds every item as its encoded
    key followed by its four encoded address fields; it is a single pair
    of braces for an empty mapping. *)
Theorem json_dump_holds_every_item
    (m : dict address_info) (k : string) (v : address_info) :
  In (k, v) m ->
  contains ("  " ++ json_string k ++ ": " ++ json_address v)
           (generate_json_mapping m) = true
  /\ contains (json_string "address" ++ ": " ++ json_string (address v))
              (json_address v) = true
  /\ contains (json_string "city" ++ ": " ++ json_string (city v))
              (json_address v) = true
  /\ contains (json_string "state" ++ ": " ++ json_string (state v))
              (json_address v) = true
  /\ contains (json_string "zipcode" ++ ": " ++ json_string (zipcode v))
              (json_address v) = true
  /\ generate_json_mapping [] = "{}".
Proof.
  intros Hin. split.
  - unfold generate_json_mapping. destruct m as [|item m]; [destruct Hin|].
    do 2 apply LocationUpdates.contains_skip.
    apply contains_left. now apply json_items_contain.
  - unfold json_address.
    repeat match goal with |- _ /\ _ => split end;
      try reflexivity; LocationUpdates.find_piece.
Qed.

Lemma json_dump_holds_every_item_witness :
  contains ("  " ++ json_string "O'HARE" ++ ": " ++ json_address ohare_info)
           (generate_json_mapping (process_locations ohare_df)) = true.
Proof.
  destruct (json_dump_holds_every_item
              (process_locations ohare_df) "O'HARE" ohare_info) as [H _].
  - left. reflexivity.
  - exact H.
Defined.

End LocationLaws.

(* ================================================================== *)
(** * Reading a stored number back *)
(* ================================================================== *)

Module NumberLaws.
Import Py Spec TextFacts TextLaws Carriers.

Local Open Scope Z_scope.

Lemma int_digits_acc (d : Decimal.uint) :
  forall acc : positive,
  int_digits true (Z.pos acc) (NilEmpty.string_of_uint d)
  = Some (Z.pos (Pos.of_uint_acc d acc)).
Proof.
  induction d; intros acc; cbn [NilEmpty.string_of_uint Pos.of_uint_acc];
    [reflexivity|..];
    cbn [int_digits];
    match goal with
    | |- (if is_digit ?c then _ else _) = _ =>
        change (is_digit c) with true; cbv iota;
        change (digit_value c) with (Z.of_nat (code c - 48)); cbn [code]
    end;
    rewrite <- IHd; f_equal; vm_compute Z.of_nat; lia.
Qed.

Lemma int_digits_uint (d : Decimal.uint) :
  forall b, d <> Decimal.Nil ->
  int_digits b 0 (NilEmpty.string_of_uint d) = Some (Z.of_N (Pos.of_uint d)).
Proof.
  induction d; intros b Hd; [now elim Hd|..];
    cbn [NilEmpty.string_of_uint Pos.of_uint int_digits];
    match goal with
    | |- (if is_digit ?c then _ else _) = _ =>
        change (is_digit c) with true; cbv iota
    end.
  - destruct d; [reflexivity|..]; apply IHd; discriminate.
  - apply (int_digits_acc d 1).
  - apply (int_digits_acc d 2).
  - apply (int_digits_acc d 3).
  - apply (int_digits_acc d 4).
  - apply (int_digits_acc d 5).
  - apply (int_digits_acc d 6).
  - apply (int_digits_acc d 7).
  - apply (int_digits_acc d 8).
  - apply (int_digits_acc d 9).
Qed.

Lemma uint_no_c_space (d : Decimal.uint) :
  every_char (fun c => negb (is_c_space c)) (NilEmpty.string_of_uint d) = true.
Proof. induction d; simpl; auto. Qed.

Lemma rstrip_none (p : ascii -> bool) (s : string) :
  every_char (fun c => negb (p c)) s = true -> rstrip_by p s = s.
Proof.
  induction s as [|c s IH]; simpl; [reflexivity|].
  intros H. apply andb_prop in H as [Hc Hs].
  rewrite (IH Hs). apply negb_true_iff in Hc. rewrite Hc. now destruct s.
Qed.

Lemma lstrip_none (p : ascii -> bool) (s : string) :
  every_char (fun c => negb (p c)) s = true -> lstrip_by p s = s.
Proof.
  destruct s as [|c s]; simpl; [reflexivity|].
  intros H. apply andb_prop in H as [Hc _].
  apply negb_true_iff in Hc. now rewrite Hc.
Qed.

Lemma int_of_text_uint (d : Decimal.uint) :
  d <> Decimal.Nil ->
  int_of_text (NilEmpty.string_of_uint d) = Some (Z.of_N (Pos.of_uint d)).
Proof.
  intros Hd. unfold int_of_text.
  rewrite lstrip_none, rstrip_none by apply uint_no_c_space.
  rewrite <- (int_digits_uint d false Hd).
  destruct d; [now elim Hd|..]; reflexivity.
Qed.

Lemma int_of_text_neg (d : Decimal.uint) :
  d <> Decimal.Nil ->
  int_of_text (String "-" (NilEmpty.string_of_uint d))
  = Some (- Z.of_N (Pos.of_uint d)).
Proof.
  intros Hd. unfold int_of_text.
  assert (H : every_char (fun c => negb (is_c_space c))
                (String "-" (NilEmpty.string_of_uint d)) = true).
  { simpl. apply uint_no_c_space. }
  rewrite lstrip_none, rstrip_none by exact H.
  now rewrite (int_digits_uint d false Hd).
Qed.

(** X21. The stored text of a number reads back as the same integer:
    [int] of the decimal text of [z] is [z].  So a spreadsheet that holds
    an MC Number as the text the import stored gives the same key. *)
Theorem number_text_reads_back (z : Z) :
  int (CStr (str_int z)) = inl z
  /\ number_field (CStr (str_int z)) = Ok (Some (str_int z)).
Proof.
  assert (H : int (CStr (str_int z)) = inl z).
  { unfold int, str_int.
    rewrite <- (DecimalZ.of_to z) at 2.
    unfold NilZero.string_of_int, NilZero.string_of_uint, Z.of_int, Z.of_uint.
    destruct (CarrierLaws.to_int_not_nil z) as [Hp Hn].
    destruct (Z.to_int z) as [d|d].
    - assert (Hd : d <> Decimal.Nil) by congruence.
      destruct d; [now elim Hd|..]; now rewrite int_of_text_uint.
    - assert (Hd : d <> Decimal.Nil) by congruence.
      destruct d; [now elim Hd|..]; now rewrite int_of_text_neg. }
  split; [exact H|].
  now apply CarrierLaws.number_field_int.
Qed.

End NumberLaws.
